(** * system_logger: the host-monitoring daemon of src/system_logger.c

    A shallow embedding of the daemon's configuration reader, its log
    writer, its inotify event decoder and its periodic fallback scan,
    with the properties the design document states about them.

    Conventions.
    - C [int], [uint32_t], [ssize_t] and [time_t] values are integers of [Z];
      the one place where the program can leave the range of its type, the
      cursor update [i += sizeof(struct inotify_event) + event->len], has its
      conversion back to [int] written out ([to_int]).
    - [char] is [ascii]; a [char] array is a [list ascii]; a C string that the
      program only passes around is a [string].
    - The program's file-scope variables are the fields of [globals].
    - [log_message] is the only function that touches the two sinks.  Its
      callers are embedded as functions that return, in order, the
      [log_message] calls they make ([log_call]); [deliver] runs such a
      sequence against the sinks. *)

From Stdlib Require Import ZArith List String Ascii Bool Lia.
Import ListNotations.

Open Scope string_scope.
Open Scope list_scope.
Open Scope Z_scope.

(** ** The C library and the kernel interface the program relies on *)

Module Libc.

(** Priorities of <sys/syslog.h>. *)
Definition LOG_ERR : Z := 3.
Definition LOG_WARNING : Z := 4.
Definition LOG_INFO : Z := 6.
Definition LOG_DEBUG : Z := 7.

(** Event bits of <sys/inotify.h>. *)
Definition IN_MODIFY : Z := 2.
Definition IN_MOVED_FROM : Z := 64.
Definition IN_MOVED_TO : Z := 128.
Definition IN_CREATE : Z := 256.
Definition IN_DELETE : Z := 512.

Definition NUL : ascii := Ascii.zero.
Definition newline : ascii := "010"%char.

(** [snprintf(dst, size, ...)] keeps at most [size - 1] characters of the
    formatted text. *)
Definition snprintf (size : nat) (formatted : string) : string :=
  substring 0 (size - 1) formatted.

(** A stdio output stream: what has reached the file and what still sits
    in the stream's buffer. *)
Record FILE : Type := mkFILE { written : string; buffered : string }.

Definition fprintf (f : FILE) (text : string) : FILE :=
  {| written := written f; buffered := (buffered f ++ text)%string |}.

Definition fflush (f : FILE) : FILE :=
  {| written := (written f ++ buffered f)%string; buffered := "" |}.

(** Conversion of an integer to [int] (two's complement, 32 bits). *)
Definition to_int (z : Z) : Z := (z + 2147483648) mod 4294967296 - 2147483648.

End Libc.
Import Libc.

(** ** Program state *)

(** [watch_dir_t]. *)
Record watch_dir_t : Type := mkWatch {
  path : string;
  wd : Z;
  last_check : Z
}.

Definition set_last_check (w : watch_dir_t) (t : Z) : watch_dir_t :=
  {| path := path w; wd := wd w; last_check := t |}.

(** The file-scope variables, the function-local [static last_check] of
    [check_directory_changes_periodic] ([periodic_last_check]) and the
    system log the process writes to ([syslog_out], one entry per [syslog]
    call). *)
Record globals : Type := mkGlobals {
  log_file : option FILE;
  log_interval : Z;
  inotify_fd : Z;
  use_syslog : bool;
  watch_dirs : list watch_dir_t;
  periodic_last_check : Z;
  syslog_out : list (Z * string)
}.

Definition initial_watch_dirs : list watch_dir_t :=
  [ mkWatch "/etc" (-1) 0; mkWatch "/var/log" (-1) 0; mkWatch "/tmp" (-1) 0 ].

Definition initial_globals : globals :=
  {| log_file := None;
     log_interval := 5;
     inotify_fd := -1;
     use_syslog := true;
     watch_dirs := initial_watch_dirs;
     periodic_last_check := 0;
     syslog_out := [] |}.

Definition set_log_file (g : globals) (f : option FILE) : globals :=
  {| log_file := f; log_interval := log_interval g; inotify_fd := inotify_fd g;
     use_syslog := use_syslog g; watch_dirs := watch_dirs g;
     periodic_last_check := periodic_last_check g; syslog_out := syslog_out g |}.

Definition set_log_interval (g : globals) (n : Z) : globals :=
  {| log_file := log_file g; log_interval := n; inotify_fd := inotify_fd g;
     use_syslog := use_syslog g; watch_dirs := watch_dirs g;
     periodic_last_check := periodic_last_check g; syslog_out := syslog_out g |}.

Definition set_use_syslog (g : globals) (b : bool) : globals :=
  {| log_file := log_file g; log_interval := log_interval g; inotify_fd := inotify_fd g;
     use_syslog := b; watch_dirs := watch_dirs g;
     periodic_last_check := periodic_last_check g; syslog_out := syslog_out g |}.

Definition set_watch_dirs (g : globals) (ws : list watch_dir_t) : globals :=
  {| log_file := log_file g; log_interval := log_interval g; inotify_fd := inotify_fd g;
     use_syslog := use_syslog g; watch_dirs := ws;
     periodic_last_check := periodic_last_check g; syslog_out := syslog_out g |}.

Definition set_periodic_last_check (g : globals) (t : Z) : globals :=
  {| log_file := log_file g; log_interval := log_interval g; inotify_fd := inotify_fd g;
     use_syslog := use_syslog g; watch_dirs := watch_dirs g;
     periodic_last_check := t; syslog_out := syslog_out g |}.

Definition set_syslog_out (g : globals) (l : list (Z * string)) : globals :=
  {| log_file := log_file g; log_interval := log_interval g; inotify_fd := inotify_fd g;
     use_syslog := use_syslog g; watch_dirs := watch_dirs g;
     periodic_last_check := periodic_last_check g; syslog_out := l |}.

(** ** log_message *)

(** One call [log_message(username, message, priority)]. *)
Record log_call : Type := mkCall {
  call_username : string;
  call_message : string;
  call_priority : Z
}.

Definition level_str (priority : Z) : string :=
  if priority =? LOG_WARNING then "WARNING"
  else if priority =? LOG_ERR then "ERROR"
  else if priority =? LOG_DEBUG then "DEBUG"
  else "INFO".

(** The line [fprintf(log_file, "[%s] [%s] [%s] %s\n", ...)] writes. *)
Definition file_line (time_str username message : string) (priority : Z) : string :=
  ("[" ++ time_str ++ "] [" ++ level_str priority ++ "] [" ++ username ++ "] "
       ++ message ++ String newline "")%string.

(** The text [syslog(priority, "[%s] %s", ...)] forwards. *)
Definition syslog_text (username message : string) : string :=
  ("[" ++ username ++ "] " ++ message)%string.

(** [time_str] is what [strftime] wrote for [localtime(time(NULL))]: the
    clock and the time zone belong to the environment. *)
Definition log_message (time_str username message : string) (priority : Z)
    (g : globals) : globals :=
  let g1 :=
    match log_file g with
    | Some f =>
        set_log_file g (Some (fflush (fprintf f (file_line time_str username message priority))))
    | None => g
    end in
  if use_syslog g1
  then set_syslog_out g1 (syslog_out g1 ++ [(priority, syslog_text username message)])
  else g1.

(** Runs a sequence of [log_message] calls, in order. *)
Definition deliver (time_str : string) (calls : list log_call) (g : globals) : globals :=
  fold_left (fun g c => log_message time_str (call_username c) (call_message c) (call_priority c) g)
            calls g.

(** ** read_config *)

Module Atoi.

(** [atoi] as glibc has it: [(int) strtol(s, NULL, 10)].  White space is
    skipped, one sign is accepted, the decimal digits that follow are
    read, [strtol] saturates at the range of [long] and the conversion to
    [int] keeps the low 32 bits. *)

Definition isspace (c : ascii) : bool :=
  let n := N_of_ascii c in
  (N.eqb n 32 || (N.leb 9 n && N.leb n 13))%bool.

Definition digit_of (c : ascii) : option Z :=
  let n := Z.of_N (N_of_ascii c) in
  if (48 <=? n) && (n <=? 57) then Some (n - 48) else None.

Fixpoint skip_space (s : string) : string :=
  match s with
  | String c s' => if isspace c then skip_space s' else s
  | EmptyString => s
  end.

Fixpoint digits_value (acc : Z) (s : string) : Z :=
  match s with
  | String c s' =>
      match digit_of c with
      | Some d => digits_value (10 * acc + d) s'
      | None => acc
      end
  | EmptyString => acc
  end.

Definition LONG_MAX : Z := 9223372036854775807.
Definition LONG_MIN : Z := -9223372036854775808.

Definition strtol (s : string) : Z :=
  let s1 := skip_space s in
  let v :=
    match s1 with
    | String "-"%char r => - digits_value 0 r
    | String "+"%char r => digits_value 0 r
    | _ => digits_value 0 s1
    end in
  Z.max LONG_MIN (Z.min LONG_MAX v).

Definition atoi (s : string) : Z := to_int (strtol s).

End Atoi.
Import Atoi.

(** [fgets(line, size, config)]: at most [size - 1] characters, ending after
    the first newline; the characters read and the rest of the stream. *)
Fixpoint fgets_chars (n : nat) (stream : string) : string * string :=
  match n, stream with
  | O, _ => ("", stream)
  | _, EmptyString => ("", "")
  | S n', String c rest =>
      if Ascii.eqb c newline then (String c "", rest)
      else let (l, r) := fgets_chars n' rest in (String c l, r)
  end.

(** [None] at end of file. *)
Definition fgets (size : nat) (stream : string) : option (string * string) :=
  match stream with
  | EmptyString => None
  | _ => Some (fgets_chars (size - 1) stream)
  end.

(** The C string held by a [char] array: its characters up to the first NUL. *)
Fixpoint c_str (chars : string) : string :=
  match chars with
  | EmptyString => ""
  | String c rest => if Ascii.eqb c NUL then "" else String c (c_str rest)
  end.

(** [if (len > 0 && line[len - 1] == '\n') line[--len] = '\0';] *)
Fixpoint chomp (line : string) : string :=
  match line with
  | EmptyString => ""
  | String c EmptyString => if Ascii.eqb c newline then "" else line
  | String c rest => String c (chomp rest)
  end.

(** [line + n] for [n] no larger than [strlen(line)]. *)
Definition advance (n : nat) (line : string) : string :=
  substring n (String.length line - n) line.

Definition MAX_CONFIG_LINE : nat := 512.

(** The body of the [while (fgets(...))] loop of [read_config], for the
    characters [fgets] stored in [line]. *)
Definition config_line (chars : string) (g : globals) : globals :=
  let line := chomp (c_str chars) in
  match line with
  | EmptyString => g
  | String c _ =>
      if Ascii.eqb c "#"%char then g
      else if prefix "LOG_INTERVAL=" line then
        let interval := atoi (advance 13 line) in
        if (0 <? interval) && (interval <=? 3600) then set_log_interval g interval else g
      else if prefix "USE_SYSLOG=" line then
        set_use_syslog g (negb (atoi (advance 11 line) =? 0))
      else g
  end.

Fixpoint config_loop (fuel : nat) (stream : string) (g : globals) : globals :=
  match fuel with
  | O => g
  | S fuel' =>
      match fgets MAX_CONFIG_LINE stream with
      | None => g
      | Some (chars, rest) => config_loop fuel' rest (config_line chars g)
      end
  end.

(** [config] is the content of CONFIG_FILE, [None] when [fopen] fails.
    Every turn of the loop consumes at least one character, so the fuel
    given here is never used up ([config_loop_fuel]). *)
Definition read_config (config : option string) (g : globals) : globals :=
  match config with
  | None => g
  | Some content => config_loop (S (String.length content)) content g
  end.

(** ** check_directory_changes *)

(** Reads of the event buffer are recorded: a computation that reads the
    buffer returns its value and the offsets (into [buffer]) of the bytes
    it read, in order. *)
Definition Rd (A : Type) : Type := (A * list Z)%type.

Definition ret {A : Type} (a : A) : Rd A := (a, []).

Definition bind {A B : Type} (m : Rd A) (k : A -> Rd B) : Rd B :=
  let r := k (fst m) in (fst r, snd m ++ snd r).

Notation "x <- m ;; k" := (bind m (fun x => k))
  (at level 61, m at next level, right associativity).

(** The offsets [o], [o + 1], ..., [o + n - 1]. *)
Fixpoint span (o : Z) (n : nat) : list Z :=
  match n with
  | O => []
  | S n' => o :: span (o + 1) n'
  end.

Definition byte_val (c : ascii) : Z := Z.of_N (N_of_ascii c).

(** [&buffer[i]]: the bytes from offset [i] on.  For a negative [i] these
    are the [- i] bytes in front of the array and then the array itself.  A
    byte in front of the array or behind its end is not the program's to
    read (in C the read is undefined); it reads as NUL here, and the
    recorded offsets tell when that happens. *)
Definition ptr (buffer : list ascii) (i : Z) : list ascii :=
  if i <? 0 then repeat NUL (Z.to_nat (- i)) ++ buffer
  else skipn (Z.to_nat i) buffer.

(** Byte [k] from [p]; behind the last byte the model holds, NUL (see [ptr]). *)
Definition peek (p : list ascii) (k : nat) : ascii := nth k p NUL.

(** A 32-bit field at byte [k] of [p], in the byte order of the hosts the
    daemon runs on (little-endian). *)
Definition load_u32 (p : list ascii) (k : nat) : Z :=
  byte_val (peek p k) + 256 * byte_val (peek p (k + 1))
  + 65536 * byte_val (peek p (k + 2)) + 16777216 * byte_val (peek p (k + 3)).

(** [struct inotify_event { int wd; uint32_t mask; uint32_t cookie;
    uint32_t len; char name[]; }] of <sys/inotify.h>, at offset [i]. *)
Definition sizeof_inotify_event : Z := 16.

Definition event_wd (buffer : list ascii) (i : Z) : Rd Z :=
  (to_int (load_u32 (ptr buffer i) 0), span i 4).

Definition event_mask (buffer : list ascii) (i : Z) : Rd Z :=
  (load_u32 (ptr buffer i) 4, span (i + 4) 4).

Definition event_len (buffer : list ascii) (i : Z) : Rd Z :=
  (load_u32 (ptr buffer i) 12, span (i + 12) 4).

(** [strcmp(p, s) == 0] for a string literal [s] (no NUL inside), [p]
    pointing at offset [o]: bytes are compared up to the first difference or
    the common NUL. *)
Fixpoint strcmp_eq (p : list ascii) (o : Z) (s : string) : Rd bool :=
  match s with
  | EmptyString => (Ascii.eqb (peek p 0) NUL, [o])
  | String c s' =>
      if Ascii.eqb (peek p 0) c
      then let r := strcmp_eq (tl p) (o + 1) s' in (fst r, o :: snd r)
      else (false, [o])
  end.

(** The characters a [%s] conversion takes from [p]: up to the first NUL. *)
Fixpoint c_string (p : list ascii) : string :=
  match p with
  | [] => ""
  | c :: p' => if Ascii.eqb c NUL then "" else String c (c_string p')
  end.

(** [event->name] read as a string: its characters and the NUL that ends it. *)
Definition event_name (buffer : list ascii) (i : Z) : Rd string :=
  let s := c_string (ptr buffer (i + sizeof_inotify_event)) in
  (s, span (i + sizeof_inotify_event) (S (String.length s))).

(** Lines 203-208. *)
Definition event_type (mask : Z) : string :=
  if negb (Z.land mask IN_CREATE =? 0) then "creation"
  else if negb (Z.land mask IN_DELETE =? 0) then "deletion"
  else if negb (Z.land mask IN_MODIFY =? 0) then "modification"
  else if negb (Z.land mask IN_MOVED_FROM =? 0) then "moved from"
  else if negb (Z.land mask IN_MOVED_TO =? 0) then "moved to"
  else "modification".

(** Lines 201-219: what is done for the event at offset [i] once entry [w]
    of the table has its handle. *)
Definition log_event (username : string) (w : watch_dir_t)
    (buffer : list ascii) (i : Z) : Rd (list log_call) :=
  len <- event_len buffer i ;;
  own <- (if 0 <? len
          then strcmp_eq (ptr buffer (i + sizeof_inotify_event))
                         (i + sizeof_inotify_event) "system_logger.log"
          else ret false) ;;
  if (own : bool) then ret []
  else
    mask <- event_mask buffer i ;;
    len' <- event_len buffer i ;;
    msg <- (if 0 <? len'
            then name <- event_name buffer i ;;
                 ret (snprintf 1024 (path w ++ ": " ++ event_type mask
                                            ++ " of file " ++ name)%string)
            else ret (snprintf 1024 (path w ++ ": " ++ event_type mask)%string)) ;;
    ret [mkCall username msg LOG_INFO].

(** The [for (j ...)] loop over the table, for the event at offset [i]: the
    [log_message] calls it makes. *)
Fixpoint scan_watch_dirs (username : string) (ws : list watch_dir_t)
    (buffer : list ascii) (i : Z) : Rd (list log_call) :=
  match ws with
  | [] => ret []
  | w :: ws' =>
      ewd <- event_wd buffer i ;;
      if wd w =? ewd then log_event username w buffer i
      else scan_watch_dirs username ws' buffer i
  end.

(** One turn of the [while (i < length)] loop: the value of [i] it starts
    with, the value it leaves in [i], the bytes it read and the calls it
    made. *)
Record iteration : Type := mkIteration {
  it_offset : Z;
  it_next : Z;
  it_reads : list Z;
  it_logs : list log_call
}.

(** The [while (i < length)] loop.  [None]: the loop has not ended within
    [fuel] turns. *)
Fixpoint decode_loop (fuel : nat) (username : string) (ws : list watch_dir_t)
    (buffer : list ascii) (length : Z) (i : Z) : option (list iteration) :=
  match fuel with
  | O => None
  | S fuel' =>
      if i <? length then
        let body := scan_watch_dirs username ws buffer i in
        let len := event_len buffer i in
        let i' := to_int (i + (sizeof_inotify_event + fst len)) in
        match decode_loop fuel' username ws buffer length i' with
        | Some rest =>
            Some ({| it_offset := i; it_next := i';
                     it_reads := snd body ++ snd len; it_logs := fst body |} :: rest)
        | None => None
        end
      else Some []
  end.

(** [pending] is what the notification channel holds: [None] when [select]
    reports nothing to read, otherwise the array [buffer] as [read] left it
    and the value [read] returned. *)
Definition check_directory_changes (fuel : nat) (username : string) (g : globals)
    (pending : option (list ascii * Z)) : option (list iteration) :=
  if inotify_fd g <? 0 then Some []
  else
    match pending with
    | None => Some []
    | Some (buffer, length) =>
        if 0 <? length then decode_loop fuel username (watch_dirs g) buffer length 0
        else Some []
    end.

Definition logs_of (trace : list iteration) : list log_call := flat_map it_logs trace.
Definition reads_of (trace : list iteration) : list Z := flat_map it_reads trace.

(** ** check_directory_changes_periodic *)

Definition MAX_PATH_LEN : nat := 512.

(** The body of the [for] loop, for one entry of the table.  [stat p] is the
    [st_mtime] that [stat(p, ...)] reports, [None] when it fails. *)
Definition periodic_target (username : string) (stat : string -> option Z)
    (w : watch_dir_t) : watch_dir_t * list log_call :=
  match stat (path w) with
  | None => (w, [])
  | Some st_mtime =>
      let skip :=
        if String.eqb (path w) "/var/log" then
          match stat (snprintf (MAX_PATH_LEN + 32) (path w ++ "/system_logger.log")%string) with
          | Some log_mtime => (st_mtime =? log_mtime) && (0 <? last_check w)
          | None => false
          end
        else false in
      if skip then (set_last_check w st_mtime, [])
      else
        (set_last_check w st_mtime,
         if (0 <? last_check w) && (last_check w <? st_mtime)
         then [mkCall username
                 (snprintf 1024 ("Changes detected in directory: " ++ path w)%string) LOG_INFO]
         else [])
  end.

Fixpoint periodic_loop (username : string) (stat : string -> option Z)
    (ws : list watch_dir_t) : list watch_dir_t * list log_call :=
  match ws with
  | [] => ([], [])
  | w :: ws' =>
      let r := periodic_target username stat w in
      let rs := periodic_loop username stat ws' in
      (fst r :: fst rs, snd r ++ snd rs)
  end.

(** [now] is the value of [time(NULL)]. *)
Definition check_directory_changes_periodic (username : string) (now : Z)
    (stat : string -> option Z) (g : globals) : globals * list log_call :=
  if now - periodic_last_check g <? 30 then (g, [])
  else
    let g1 := set_periodic_last_check g now in
    let r := periodic_loop username stat (watch_dirs g1) in
    (set_watch_dirs g1 (fst r), snd r).

(** ** The records of the notification channel *)

(** One event as the kernel queues it: the fields of the header, the entry
    name and the number of NUL bytes that pad the name field.  The [len]
    field of the header counts the name and its padding. *)
Record inotify_event : Type := mkEvent {
  ev_wd : Z;
  ev_mask : Z;
  ev_cookie : Z;
  ev_name : string;
  ev_pad : nat
}.

Definition ev_len (r : inotify_event) : Z :=
  Z.of_nat (String.length (ev_name r) + ev_pad r).

Definition byte_of (z : Z) : ascii := ascii_of_N (Z.to_N (z mod 256)).

Definition le32 (z : Z) : list ascii :=
  [byte_of z; byte_of (z / 256); byte_of (z / 65536); byte_of (z / 16777216)].

(** The bytes of one record in the buffer. *)
Definition encode (r : inotify_event) : list ascii :=
  le32 (ev_wd r) ++ le32 (ev_mask r) ++ le32 (ev_cookie r) ++ le32 (ev_len r)
  ++ list_ascii_of_string (ev_name r) ++ repeat NUL (ev_pad r).

Definition encode_all (rs : list inotify_event) : list ascii := flat_map encode rs.

Definition record_size (r : inotify_event) : Z := sizeof_inotify_event + ev_len r.

Definition total_size (rs : list inotify_event) : Z :=
  fold_right (fun r n => record_size r + n) 0 rs.

Definition no_NUL (s : string) : bool :=
  forallb (fun c => negb (Ascii.eqb c NUL)) (list_ascii_of_string s).

(** A record as the kernel writes it: fields in the range of their types, a
    name of at most NAME_MAX characters, none of them NUL, and a name field
    that is either absent or NUL-terminated. *)
Definition well_formed (r : inotify_event) : bool :=
  (-2147483648 <=? ev_wd r) && (ev_wd r <? 2147483648)
  && (0 <=? ev_mask r) && (ev_mask r <? 4294967296)
  && (0 <=? ev_cookie r) && (ev_cookie r <? 4294967296)
  && no_NUL (ev_name r)
  && (String.length (ev_name r) <=? 255)%nat
  && ((ev_len r =? 0) || (1 <=? ev_pad r)%nat).

(** The calls the decoder owes for a record whose handle is that of entry
    [w]: lines 201-219, read off the record instead of the buffer. *)
Definition report_entry (username : string) (w : watch_dir_t) (r : inotify_event)
    : list log_call :=
  if (0 <? ev_len r) && String.eqb (ev_name r) "system_logger.log" then []
  else if 0 <? ev_len r then
    [mkCall username
       (path w ++ ": " ++ event_type (ev_mask r) ++ " of file " ++ ev_name r)%string
       LOG_INFO]
  else
    [mkCall username (path w ++ ": " ++ event_type (ev_mask r))%string LOG_INFO].

(** The calls the decoder owes for a record: those for the first entry of
    the table that has the record's handle, none when no entry has it. *)
Definition report (username : string) (ws : list watch_dir_t) (r : inotify_event)
    : list log_call :=
  match find (fun w => wd w =? ev_wd r) ws with
  | None => []
  | Some w => report_entry username w r
  end.

(** Every offset of [l] lies in [lo, hi). *)
Definition within (lo hi : Z) (l : list Z) : Prop := Forall (fun o => lo <= o < hi) l.

(** An iteration of the decoding loop that starts at offset [i] decodes the
    record [r]. *)
Definition decodes (username : string) (ws : list watch_dir_t) (i : Z)
    (r : inotify_event) (it : iteration) : Prop :=
  it_offset it = i
  /\ it_next it = i + (sizeof_inotify_event + ev_len r)
  /\ it_logs it = report username ws r
  /\ within i (i + (sizeof_inotify_event + ev_len r)) (it_reads it).

(** The iterations [trace], the first starting at offset [i], decode the
    records [rs] one for one. *)
Fixpoint decodes_all (username : string) (ws : list watch_dir_t) (i : Z)
    (rs : list inotify_event) (trace : list iteration) : Prop :=
  match rs, trace with
  | [], [] => True
  | r :: rs', it :: trace' =>
      decodes username ws i r it
      /\ decodes_all username ws (i + record_size r) rs' trace'
  | _, _ => False
  end.

(** The paths of the table fit their [char path[MAX_PATH_LEN]]. *)
Definition paths_fit (ws : list watch_dir_t) : Prop :=
  Forall (fun w => (String.length (path w) < MAX_PATH_LEN)%nat) ws.

(** ** Event kinds, as the design document names them *)

Inductive kind : Type := Created | Deleted | Modified | MovedFrom | MovedTo.

Definition kind_bit (k : kind) : Z :=
  match k with
  | Created => IN_CREATE
  | Deleted => IN_DELETE
  | Modified => IN_MODIFY
  | MovedFrom => IN_MOVED_FROM
  | MovedTo => IN_MOVED_TO
  end.

Definition kind_text (k : kind) : string :=
  match k with
  | Created => "creation"
  | Deleted => "deletion"
  | Modified => "modification"
  | MovedFrom => "moved from"
  | MovedTo => "moved to"
  end.

Definition precedence : list kind := [Created; Deleted; Modified; MovedFrom; MovedTo].

Definition has_kind (mask : Z) (k : kind) : bool := negb (Z.land mask (kind_bit k) =? 0).

(** The first kind, in the order of [precedence], whose bit is set in [mask]. *)
Definition first_kind (mask : Z) : option kind := find (has_kind mask) precedence.

(** ** The self-noise rule of the fallback scan *)

(** The guard of lines 237-245: the entry is the log directory, the log
    file's modification time could be read and equals the directory's, and
    the entry has a baseline. *)
Definition self_noise (stat : string -> option Z) (w : watch_dir_t) (st_mtime : Z) : Prop :=
  path w = "/var/log"
  /\ stat "/var/log/system_logger.log" = Some st_mtime
  /\ 0 < last_check w.

Definition change_record (username : string) (w : watch_dir_t) : log_call :=
  mkCall username ("Changes detected in directory: " ++ path w)%string LOG_INFO.

(** A file system for the examples: the modification times of /var/log and
    /tmp ([dir_mtime]) and of the log file ([log_mtime]); /etc cannot be
    read. *)
Definition stat_example (dir_mtime log_mtime : Z) (p : string) : option Z :=
  if String.eqb p "/var/log" then Some dir_mtime
  else if String.eqb p "/var/log/system_logger.log" then Some log_mtime
  else if String.eqb p "/tmp" then Some dir_mtime
  else None.

(** A running daemon for the examples: the notification channel is open and
    the three directories are watched under the handles 1, 2 and 7. *)
Definition example_globals : globals :=
  {| log_file := Some (mkFILE "" "");
     log_interval := 5;
     inotify_fd := 3;
     use_syslog := true;
     watch_dirs := [mkWatch "/etc" 1 100; mkWatch "/var/log" 2 100; mkWatch "/tmp" 7 100];
     periodic_last_check := 0;
     syslog_out := [] |}.

(** Three records: a file created in /tmp, an event of /etc without a name,
    and an event of a handle that is not in the table. *)
Definition example_events : list inotify_event :=
  [ mkEvent 7 IN_CREATE 0 "foo.txt" 9;
    mkEvent 1 IN_MODIFY 0 "" 0;
    mkEvent 9 IN_DELETE 0 "gone" 12 ].

(** ** The remaining functions of the program *)

Definition set_inotify_fd (g : globals) (fd : Z) : globals :=
  {| log_file := log_file g; log_interval := log_interval g; inotify_fd := fd;
     use_syslog := use_syslog g; watch_dirs := watch_dirs g;
     periodic_last_check := periodic_last_check g; syslog_out := syslog_out g |}.

(** [get_username]; [getenv] gives the value of an environment variable,
    [None] when it is not set. *)
Definition get_username (getenv : string -> option string) : string :=
  match getenv "USER" with
  | Some user => user
  | None =>
      match getenv "USERNAME" with
      | Some user => user
      | None => "unknown"
      end
  end.

(** [open_log_file].  [existing] is the content of LOG_FILE when
    [fopen(LOG_FILE, "a")] succeeds (empty for a file it creates) and [None]
    when it fails; the message written to [stderr] is outside the state. *)
Definition open_log_file (existing : option string) (g : globals) : globals * Z :=
  match existing with
  | None => (set_log_file g None, -1)
  | Some content => (set_log_file g (Some (mkFILE content "")), 0)
  end.

(** [close_log_file]: the state, and the content [fclose] leaves in the file
    when a stream was open. *)
Definition close_log_file (g : globals) : globals * option string :=
  match log_file g with
  | Some f => (set_log_file g None, Some (written (fflush f)))
  | None => (g, None)
  end.

(** Signal numbers of <signal.h>. *)
Definition SIGINT : Z := 2.
Definition SIGTERM : Z := 15.

(** [signal_handler]: the state it leaves, the exit status when it ends the
    process, and the content of the log file it closed.  Closing the
    descriptor of the channel and [closelog] act on the kernel and on the
    system log service, not on the program's variables. *)
Definition signal_handler (time_str : string) (getenv : string -> option string)
    (sig : Z) (g : globals) : globals * option Z * option string :=
  let username := get_username getenv in
  if (sig =? SIGTERM) || (sig =? SIGINT) then
    let g1 := log_message time_str username
                "Termination signal received. Program is stopping." LOG_INFO g in
    let r := close_log_file g1 in
    (fst r, Some 0, snd r)
  else (g, None, None).

(** The [for] loop of [init_directory_monitoring].  [inotify_add_watch p]
    is what the call returns for the path [p]; [now] is [time(NULL)]. *)
Fixpoint add_watches (inotify_add_watch : string -> Z) (now : Z)
    (ws : list watch_dir_t) : list watch_dir_t :=
  match ws with
  | [] => []
  | w :: ws' =>
      let wd' := inotify_add_watch (path w) in
      (if 0 <=? wd' then {| path := path w; wd := wd'; last_check := now |} else w)
      :: add_watches inotify_add_watch now ws'
  end.

(** [init_directory_monitoring]; [inotify_init] is what the call of that
    name returns. *)
Definition init_directory_monitoring (inotify_init : Z) (inotify_add_watch : string -> Z)
    (now : Z) (g : globals) : globals * Z :=
  let g1 := set_inotify_fd g inotify_init in
  if inotify_init <? 0 then (g1, -1)
  else (set_watch_dirs g1 (add_watches inotify_add_watch now (watch_dirs g1)), 0).

(** The [%d] conversion of an [int]: at most ten digits. *)
Definition digit_char (d : Z) : ascii := ascii_of_N (Z.to_N (48 + d)).

Fixpoint print_digits (fuel : nat) (n : Z) (tail : string) : string :=
  match fuel with
  | O => tail
  | S fuel' =>
      let tail' := String (digit_char (n mod 10)) tail in
      if n <? 10 then tail' else print_digits fuel' (n / 10) tail'
  end.

Definition printf_d (n : Z) : string :=
  if n <? 0 then String "-"%char (print_digits 10 (- n) "")
  else print_digits 10 n "".

(** [strstr(s, needle) != NULL]. *)
Fixpoint strstr_found (needle s : string) : bool :=
  prefix needle s
  || match s with
     | EmptyString => false
     | String _ s' => strstr_found needle s'
     end.

Definition MAX_LINE_LEN : nat := 256.

(** The inner [while (fgets(...))] loop of [log_network_connections], with
    the two counters.  The counters are [int]; they stay below the number of
    characters of the file. *)
Fixpoint count_connections (fuel : nat) (stream : string)
    (connection_count established_count : Z) : Z * Z :=
  match fuel with
  | O => (connection_count, established_count)
  | S fuel' =>
      match fgets MAX_LINE_LEN stream with
      | None => (connection_count, established_count)
      | Some (chars, rest) =>
          count_connections fuel' rest (connection_count + 1)
            (if strstr_found ": 01 " (c_str chars)
             then established_count + 1 else established_count)
      end
  end.

(** The counters after the file has been read: the first line is read and
    dropped, the others are counted. *)
Definition tcp_counts (content : string) : Z * Z :=
  match fgets MAX_LINE_LEN content with
  | Some (_, rest) => count_connections (S (String.length rest)) rest 0 0
  | None => (0, 0)
  end.

(** [log_network_connections].  [proc_net_tcp] is the content of
    /proc/net/tcp, [None] when it cannot be opened, and [strerror] the text
    of the error in that case. *)
Definition log_network_connections (username strerror : string)
    (proc_net_tcp : option string) : list log_call :=
  match proc_net_tcp with
  | None =>
      [mkCall username (snprintf 256 ("Error opening /proc/net/tcp: " ++ strerror)%string)
         LOG_WARNING]
  | Some content =>
      let counts := tcp_counts content in
      [mkCall username
         (snprintf 256 ("TCP network connections: total " ++ printf_d (fst counts)
                          ++ ", established " ++ printf_d (snd counts))%string)
         LOG_INFO]
  end.

(** [s] has no newline in it. *)
Definition no_newline (s : string) : bool :=
  forallb (fun c => negb (Ascii.eqb c newline)) (list_ascii_of_string s).

(** The text of a file whose lines are [ls], each ended by a newline. *)
Fixpoint text_of_lines (ls : list string) : string :=
  match ls with
  | [] => ""
  | l :: ls' => (l ++ String newline (text_of_lines ls'))%string
  end.

(** The entry [add_watches] produces for [w]. *)
Definition watched (inotify_add_watch : string -> Z) (now : Z) (w : watch_dir_t)
    : watch_dir_t :=
  if 0 <=? inotify_add_watch (path w)
  then {| path := path w; wd := inotify_add_watch (path w); last_check := now |}
  else w.

(** Handles for the examples: /etc cannot be watched. *)
Definition add_watch_example (p : string) : Z :=
  if String.eqb p "/var/log" then 2 else if String.eqb p "/tmp" then 7 else -1.

(** What a sequence of calls adds to the log file and to the system log. *)
Fixpoint file_lines (time_str : string) (calls : list log_call) : string :=
  match calls with
  | [] => ""
  | c :: calls' =>
      (file_line time_str (call_username c) (call_message c) (call_priority c)
       ++ file_lines time_str calls')%string
  end.

Definition syslog_entries (calls : list log_call) : list (Z * string) :=
  map (fun c => (call_priority c, syslog_text (call_username c) (call_message c))) calls.

(** A comment line of 511 characters, for the examples. *)
Definition long_comment : string :=
  String "#"%char (string_of_list_ascii (repeat "x"%char 510)).

(** Every character of [s] is a decimal digit. *)
Definition all_digits (s : string) : bool :=
  forallb (fun c => match digit_of c with Some _ => true | None => false end)
          (list_ascii_of_string s).

(** The iterations [trace] follow one another from cursor [i]: each starts
    where the one before left the cursor, below [length], and the last
    leaves the cursor at or past [length]. *)
Fixpoint chained (length i : Z) (trace : list iteration) : Prop :=
  match trace with
  | [] => length <= i
  | it :: trace' =>
      it_offset it = i /\ i < length /\ chained length (it_next it) trace'
  end.

(** An iteration makes no call, or one call at info priority for [username]. *)
Definition at_most_one_info (username : string) (it : iteration) : Prop :=
  it_logs it = [] \/ exists msg, it_logs it = [mkCall username msg LOG_INFO].

(** A line of /proc/net/tcp that fits the array of [log_network_connections]
    with its newline, and holds neither a newline nor a NUL. *)
Definition plain_line (l : string) : bool :=
  no_newline l && no_NUL l && (String.length l <? 255)%nat.

(** ** main, up to its loop *)

(** What [main] asks of its environment before the loop. *)
Record environment : Type := mkEnvironment {
  env_getenv : string -> option string;
  env_config : option string;
  env_log_existing : option string;
  env_inotify_init : Z;
  env_inotify_add_watch : string -> Z;
  env_now : Z;
  env_strerror : string;
  env_geteuid : Z;
  env_getuid : Z
}.

(** The [log_message] calls of [main] between [open_log_file] and the loop,
    for the state [g] that [init_directory_monitoring] left and its return
    value [rc]. *)
Definition startup_calls (env : environment) (rc : Z) (g : globals) : list log_call :=
  let username := get_username (env_getenv env) in
  (if rc <? 0
   then [mkCall username
           (snprintf 512 ("Failed to initialize directory monitoring: "
                            ++ env_strerror env)%string) LOG_WARNING]
   else [])
  ++ [mkCall username "------------------------------" LOG_INFO;
      mkCall username "Logging program started" LOG_INFO;
      (if env_geteuid env =? 0
       then mkCall username "Program is running with root privileges" LOG_INFO
       else mkCall username
              (snprintf 512 ("Program is running as user (UID: "
                               ++ printf_d (to_int (env_getuid env)) ++ ")")%string)
              LOG_INFO);
      mkCall username
        (snprintf 512 ("Logging interval: " ++ printf_d (log_interval g)
                         ++ " seconds")%string) LOG_INFO].

(** [main] from its first statement to the [while (1)]: the state, and the
    exit status when [main] returns before the loop.  All the records of the
    start carry the time stamp [time_str]. *)
Definition startup (time_str : string) (env : environment) (g : globals)
    : globals * option Z :=
  let g1 := read_config (env_config env) g in
  let opened := open_log_file (env_log_existing env) g1 in
  if negb (snd opened =? 0) then (fst opened, Some 1)
  else
    let init := init_directory_monitoring (env_inotify_init env)
                  (env_inotify_add_watch env) (env_now env) (fst opened) in
    (deliver time_str (startup_calls env (snd init) (fst init)) (fst init), None).

(** An environment for the examples: a configuration that sets the interval
    to 60, an empty log file, and no notification channel. *)
Definition example_environment : environment :=
  {| env_getenv := fun v => if String.eqb v "USER" then Some "root" else None;
     env_config := Some "LOG_INTERVAL=60";
     env_log_existing := Some "";
     env_inotify_init := -1;
     env_inotify_add_watch := add_watch_example;
     env_now := 1000;
     env_strerror := "Too many open files";
     env_geteuid := 0;
     env_getuid := 0 |}.




(** * Properties *)

(** ** Strings *)

Lemma length_append (s t : string) :
  String.length (s ++ t)%string = (String.length s + String.length t)%nat.
Proof.
  induction s as [|c s IH]; simpl; [reflexivity | now rewrite IH].
Qed.

Lemma substring_whole (s : string) (n : nat) :
  (String.length s <= n)%nat -> substring 0 n s = s.
Proof.
  revert n; induction s as [|c s IH]; intros n Hn.
  - destruct n; reflexivity.
  - destruct n as [|n]; simpl in Hn; [lia|].
    simpl. rewrite IH by lia. reflexivity.
Qed.

Lemma snprintf_fits (size : nat) (s : string) :
  (String.length s < size)%nat -> snprintf size s = s.
Proof.
  intros H. unfold snprintf. apply substring_whole. lia.
Qed.

(** ** log_message *)

(** C9.  The two sinks of [log_message] are served independently.  The log
    file after the call is a function of the log file before it alone: when
    it is open the line [[time] [SEVERITY] [user] text] is appended and
    flushed, whatever [use_syslog] is, the severity being WARNING for
    priority 4, ERROR for 3, DEBUG for 7 and INFO for every other one; the
    system log after the call is a function of [use_syslog] and the system
    log before it alone, whatever the state of the log file, and gains the
    record [[user] text] at the priority of the call.  In particular the
    line is still written with forwarding disabled, and the record is still
    forwarded when no log file is open. *)
Theorem log_message_sinks_independent :
  forall (time_str username message : string) (priority : Z) (g : globals),
    let g' := log_message time_str username message priority g in
    let severity :=
      if priority =? 4 then "WARNING"
      else if priority =? 3 then "ERROR"
      else if priority =? 7 then "DEBUG"
      else "INFO" in
    let line :=
      ("[" ++ time_str ++ "] [" ++ severity ++ "] [" ++ username ++ "] "
           ++ message ++ String newline "")%string in
    let record := ("[" ++ username ++ "] " ++ message)%string in
    log_file g' =
      match log_file g with
      | Some f =>
          Some {| written := (written f ++ (buffered f ++ line))%string; buffered := "" |}
      | None => None
      end
    /\ syslog_out g' =
         (if use_syslog g then syslog_out g ++ [(priority, record)] else syslog_out g)
    /\ use_syslog g' = use_syslog g
    /\ (forall f, use_syslog g = false -> log_file g = Some f ->
          log_file g' =
            Some {| written := (written f ++ (buffered f ++ line))%string; buffered := "" |}
          /\ syslog_out g' = syslog_out g)
    /\ (use_syslog g = true -> log_file g = None ->
          log_file g' = None /\ syslog_out g' = syslog_out g ++ [(priority, record)]).
Proof.
  intros time_str username message priority g g' severity line record.
  assert (El : file_line time_str username message priority = line) by reflexivity.
  assert (Er : syslog_text username message = record) by reflexivity.
  subst g'. unfold log_message. rewrite El, Er.
  destruct g as [lf li fd us ws plc so]; simpl.
  destruct lf as [f|]; destruct us; simpl; repeat split; intros; try congruence.
  - match goal with H : Some _ = Some _ |- _ => inversion H; subst; reflexivity end.
Qed.

Lemma log_message_sinks_independent_witness :
  (let g := set_use_syslog (set_log_file initial_globals (Some (mkFILE "" ""))) false in
   let g' := log_message "2024-05-01 10:00:00" "root" "Error reading /proc/uptime"
               LOG_WARNING g in
   log_file g' =
     Some {| written := ("[2024-05-01 10:00:00] [WARNING] [root] Error reading /proc/uptime"
                           ++ String newline "")%string;
             buffered := "" |}
   /\ syslog_out g' = [])
  /\ (let g' := log_message "2024-05-01 10:00:00" "root" "Logging program started" LOG_INFO
                  initial_globals in
      log_file g' = None
      /\ syslog_out g' = [(6, "[root] Logging program started")]).
Proof.
  split.
  - pose proof (log_message_sinks_independent "2024-05-01 10:00:00" "root"
                  "Error reading /proc/uptime" LOG_WARNING
                  (set_use_syslog (set_log_file initial_globals (Some (mkFILE "" ""))) false))
      as (_ & _ & _ & H & _).
    exact (H (mkFILE "" "") eq_refl eq_refl).
  - pose proof (log_message_sinks_independent "2024-05-01 10:00:00" "root"
                  "Logging program started" LOG_INFO initial_globals)
      as (_ & _ & _ & _ & H).
    exact (H eq_refl eq_refl).
Defined.

(** ** Event kinds *)

(** C3.  The kind [event_type] reports is the first one, in the order
    created, deleted, modified, moved-from, moved-to, whose bit is set in
    the mask; a mask with the created and the modified bit reports a
    creation. *)
Theorem event_type_precedence :
  forall mask : Z,
    (forall k, first_kind mask = Some k -> event_type mask = kind_text k)
    /\ (has_kind mask Created = true -> has_kind mask Modified = true ->
        event_type mask = "creation").
Proof.
  intros mask. unfold first_kind, precedence, event_type, has_kind. simpl.
  split.
  - intros k.
    destruct (Z.land mask IN_CREATE =? 0); simpl;
      [| intros H; inversion H; reflexivity].
    destruct (Z.land mask IN_DELETE =? 0); simpl;
      [| intros H; inversion H; reflexivity].
    destruct (Z.land mask IN_MODIFY =? 0); simpl;
      [| intros H; inversion H; reflexivity].
    destruct (Z.land mask IN_MOVED_FROM =? 0); simpl;
      [| intros H; inversion H; reflexivity].
    destruct (Z.land mask IN_MOVED_TO =? 0); simpl;
      [discriminate | intros H; inversion H; reflexivity].
  - intros Hc _. rewrite Hc. reflexivity.
Qed.

Lemma event_type_precedence_witness :
  first_kind (Z.lor IN_CREATE IN_MODIFY) = Some Created
  /\ event_type (Z.lor IN_CREATE IN_MODIFY) = "creation"
  /\ event_type (Z.lor IN_MOVED_TO IN_DELETE) = "deletion".
Proof.
  split; [reflexivity|]. split.
  - exact (proj2 (event_type_precedence (Z.lor IN_CREATE IN_MODIFY)) eq_refl eq_refl).
  - exact (proj1 (event_type_precedence (Z.lor IN_MOVED_TO IN_DELETE)) Deleted eq_refl).
Defined.

(** ** check_directory_changes_periodic *)

Lemma log_path_fits :
  snprintf (MAX_PATH_LEN + 32) ("/var/log" ++ "/system_logger.log")%string
  = "/var/log/system_logger.log".
Proof. reflexivity. Qed.

Lemma change_message_fits (w : watch_dir_t) :
  (String.length (path w) < MAX_PATH_LEN)%nat ->
  snprintf 1024 ("Changes detected in directory: " ++ path w)%string
  = ("Changes detected in directory: " ++ path w)%string.
Proof.
  intros H. apply snprintf_fits. rewrite length_append.
  unfold MAX_PATH_LEN in H. simpl String.length. lia.
Qed.

(** Closes a branch of the case analysis below in which the guard of the log
    directory does not apply. *)
Ltac periodic_branch :=
  first
    [ left; split; [intros [? [? ?]]; first [congruence | lia] | split; [lia | reflexivity]]
    | right; split; [intros [? [? ?]]; first [congruence | lia] | split; [lia | reflexivity]] ].

(** The loop body without its text formatting: which branch it takes. *)
Lemma periodic_target_cases (username : string) (stat : string -> option Z)
    (w : watch_dir_t) (m : Z) :
  stat (path w) = Some m ->
  (String.length (path w) < MAX_PATH_LEN)%nat ->
  (self_noise stat w m /\ periodic_target username stat w = (set_last_check w m, []))
  \/ (~ self_noise stat w m /\ 0 < last_check w < m
      /\ periodic_target username stat w = (set_last_check w m, [change_record username w]))
  \/ (~ self_noise stat w m /\ ~ 0 < last_check w < m
      /\ periodic_target username stat w = (set_last_check w m, [])).
Proof.
  intros Hstat Hfit. unfold periodic_target, self_noise. rewrite Hstat.
  rewrite (change_message_fits w Hfit). fold (change_record username w).
  destruct (String.eqb_spec (path w) "/var/log") as [Hp|Hp].
  - rewrite Hp. rewrite log_path_fits.
    destruct (stat "/var/log/system_logger.log") as [lm|] eqn:Hlog.
    + destruct (Z.eqb_spec m lm) as [Hm|Hm];
        destruct (Z.ltb_spec 0 (last_check w)) as [H0|H0];
        destruct (Z.ltb_spec (last_check w) m) as [H1|H1]; simpl;
        first [ left; subst lm; now auto | right; periodic_branch ].
    + right.
      destruct (Z.ltb_spec 0 (last_check w)) as [H0|H0];
        destruct (Z.ltb_spec (last_check w) m) as [H1|H1]; simpl; periodic_branch.
  - right.
    destruct (Z.ltb_spec 0 (last_check w)) as [H0|H0];
      destruct (Z.ltb_spec (last_check w) m) as [H1|H1]; simpl; periodic_branch.
Qed.

Lemma periodic_loop_app (username : string) (stat : string -> option Z)
    (ws1 ws2 : list watch_dir_t) :
  periodic_loop username stat (ws1 ++ ws2)
  = (fst (periodic_loop username stat ws1) ++ fst (periodic_loop username stat ws2),
     snd (periodic_loop username stat ws1) ++ snd (periodic_loop username stat ws2)).
Proof.
  induction ws1 as [|w ws1 IH]; simpl.
  - destruct (periodic_loop username stat ws2); reflexivity.
  - rewrite IH. simpl. rewrite app_assoc. reflexivity.
Qed.

(** C4, as the code has it.  On a pass where [stat] gives the directory's
    modification time [m], the entry's [last_check] becomes [m] in every
    case, and one info record naming the directory as changed is emitted
    if and only if [m] is greater than the stored [last_check], the stored
    [last_check] is greater than 0 and the self-noise guard of the log
    directory does not apply; otherwise nothing is emitted. *)
Theorem periodic_target_reports :
  forall (username : string) (stat : string -> option Z) (w : watch_dir_t) (m : Z),
    stat (path w) = Some m ->
    (String.length (path w) < MAX_PATH_LEN)%nat ->
    let r := periodic_target username stat w in
    fst r = set_last_check w m
    /\ (snd r = [change_record username w]
        <-> (last_check w < m /\ 0 < last_check w /\ ~ self_noise stat w m))
    /\ (snd r = [change_record username w] \/ snd r = []).
Proof.
  intros username stat w m Hstat Hfit r. subst r.
  destruct (periodic_target_cases username stat w m Hstat Hfit)
    as [(Hn & E) | [(Hn & Hlt & E) | (Hn & Hlt & E)]]; rewrite E; simpl.
  - split; [reflexivity|]. split; [|right; reflexivity].
    split; [discriminate | intros (_ & _ & H); contradiction].
  - split; [reflexivity|]. split; [|left; reflexivity].
    split; [intros _; repeat split; try lia; exact Hn | reflexivity].
  - split; [reflexivity|]. split; [|right; reflexivity].
    split; [discriminate | intros (H1 & H2 & _); lia].
Qed.

Lemma periodic_target_reports_witness :
  let w := mkWatch "/tmp" 3 100 in
  let r := periodic_target "root" (stat_example 200 200) w in
  fst r = set_last_check w 200
  /\ (snd r = [change_record "root" w]
      <-> (last_check w < 200 /\ 0 < last_check w
           /\ ~ self_noise (stat_example 200 200) w 200))
  /\ (snd r = [change_record "root" w] \/ snd r = []).
Proof.
  apply (periodic_target_reports "root" (stat_example 200 200) (mkWatch "/tmp" 3 100) 200).
  - reflexivity.
  - vm_compute. lia.
Defined.

(** C4 as stated fails on the log directory: with a stored time of 100 and
    the directory and the log file both modified at 200, the modification
    time is greater than the stored one, the stored one is greater than 0,
    and no record is emitted. *)
Lemma log_directory_change_not_reported :
  let w := mkWatch "/var/log" 2 100 in
  let stat := stat_example 200 200 in
  stat (path w) = Some 200
  /\ last_check w < 200
  /\ 0 < last_check w
  /\ periodic_target "root" stat w = (set_last_check w 200, []).
Proof.
  simpl. repeat split; reflexivity.
Qed.

(** C5.  For the entry of the log directory, when the directory's
    modification time equals the log file's and the entry's [last_check] is
    greater than 0, the pass emits no record for the entry and still sets
    its [last_check] to the directory's modification time: the records of
    the pass are those of the other entries. *)
Theorem log_directory_self_noise :
  forall (username : string) (stat : string -> option Z)
         (ws1 ws2 : list watch_dir_t) (w : watch_dir_t) (m : Z),
    path w = "/var/log" ->
    stat "/var/log" = Some m ->
    stat "/var/log/system_logger.log" = Some m ->
    0 < last_check w ->
    periodic_target username stat w = (set_last_check w m, [])
    /\ periodic_loop username stat (ws1 ++ w :: ws2)
       = (fst (periodic_loop username stat ws1) ++ set_last_check w m
            :: fst (periodic_loop username stat ws2),
          snd (periodic_loop username stat ws1) ++ snd (periodic_loop username stat ws2)).
Proof.
  intros username stat ws1 ws2 w m Hp Hdir Hlog Hpos.
  assert (E : periodic_target username stat w = (set_last_check w m, [])).
  { unfold periodic_target. rewrite Hp, Hdir. simpl String.eqb.
    cbv iota. rewrite log_path_fits, Hlog, Z.eqb_refl.
    destruct (Z.ltb_spec 0 (last_check w)); [reflexivity | lia]. }
  split; [exact E|].
  rewrite periodic_loop_app. simpl. rewrite E. reflexivity.
Qed.

Lemma log_directory_self_noise_witness :
  periodic_loop "root" (stat_example 200 200)
    ([mkWatch "/etc" 1 100] ++ mkWatch "/var/log" 2 100 :: [mkWatch "/tmp" 3 100])
  = ([mkWatch "/etc" 1 100; mkWatch "/var/log" 2 200; mkWatch "/tmp" 3 200],
     [change_record "root" (mkWatch "/tmp" 3 100)]).
Proof.
  pose proof (log_directory_self_noise "root" (stat_example 200 200)
                [mkWatch "/etc" 1 100] [mkWatch "/tmp" 3 100]
                (mkWatch "/var/log" 2 100) 200 eq_refl eq_refl eq_refl eq_refl) as [_ H].
  exact H.
Defined.

(** C6.  An entry observed on two passes with the same modification time
    emits nothing on the second and keeps its [last_check]; and when that
    holds of every entry of the table the second pass emits nothing and
    leaves the table as the first pass left it. *)
Theorem unchanged_directory_is_silent :
  forall (username : string) (stat1 stat2 : string -> option Z),
    (forall (w : watch_dir_t) (m : Z),
        stat1 (path w) = Some m -> stat2 (path w) = Some m ->
        let w1 := fst (periodic_target username stat1 w) in
        periodic_target username stat2 w1 = (w1, []))
    /\ (forall ws : list watch_dir_t,
          (forall w, In w ws ->
             exists m, stat1 (path w) = Some m /\ stat2 (path w) = Some m) ->
          let ws1 := fst (periodic_loop username stat1 ws) in
          periodic_loop username stat2 ws1 = (ws1, [])).
Proof.
  intros username stat1 stat2.
  assert (Hone : forall (w : watch_dir_t) (m : Z),
             stat1 (path w) = Some m -> stat2 (path w) = Some m ->
             periodic_target username stat2 (fst (periodic_target username stat1 w))
             = (fst (periodic_target username stat1 w), [])).
  { intros w m H1 H2.
    assert (E : fst (periodic_target username stat1 w) = set_last_check w m).
    { unfold periodic_target. rewrite H1.
      match goal with |- fst (if ?b then _ else _) = _ => destruct b; reflexivity end. }
    rewrite E. unfold periodic_target. simpl. rewrite H2.
    rewrite Z.ltb_irrefl, andb_false_r.
    match goal with |- (if ?b then _ else _) = _ => destruct b; reflexivity end. }
  split; [exact Hone|].
  intros ws. induction ws as [|w ws IH]; intros Hall ws1; subst ws1; simpl.
  - reflexivity.
  - destruct (Hall w (or_introl eq_refl)) as (m & H1 & H2).
    rewrite (Hone w m H1 H2). simpl.
    rewrite IH; [reflexivity|]. intros w' Hin. apply Hall. right. exact Hin.
Qed.

Lemma unchanged_directory_is_silent_witness :
  (let w1 := fst (periodic_target "root" (stat_example 200 150) (mkWatch "/tmp" 3 100)) in
   periodic_target "root" (stat_example 200 170) w1 = (w1, []))
  /\ (let ws1 := fst (periodic_loop "root" (stat_example 200 150)
                        [mkWatch "/var/log" 2 100; mkWatch "/tmp" 3 100]) in
      periodic_loop "root" (stat_example 200 170) ws1 = (ws1, [])).
Proof.
  split.
  - exact (proj1 (unchanged_directory_is_silent "root" (stat_example 200 150)
                    (stat_example 200 170))
             (mkWatch "/tmp" 3 100) 200 eq_refl eq_refl).
  - apply (proj2 (unchanged_directory_is_silent "root" (stat_example 200 150)
                    (stat_example 200 170))
             [mkWatch "/var/log" 2 100; mkWatch "/tmp" 3 100]).
    intros w [H|[H|[]]]; subst w; exists 200; split; reflexivity.
Defined.

(** C7.  The scan runs its comparisons only when at least 30 seconds lie
    between [now] and the single stored time of the last run, and it then
    stores [now]; otherwise it returns at once and changes nothing.  So of
    two calls no more than 29 seconds apart, the first of which runs, the
    second changes nothing and emits nothing. *)
Theorem periodic_rate_limit :
  forall (username : string) (stat : string -> option Z) (g : globals) (now : Z),
    (now - periodic_last_check g < 30 ->
       check_directory_changes_periodic username now stat g = (g, []))
    /\ (30 <= now - periodic_last_check g ->
          check_directory_changes_periodic username now stat g
          = (set_watch_dirs (set_periodic_last_check g now)
               (fst (periodic_loop username stat (watch_dirs g))),
             snd (periodic_loop username stat (watch_dirs g)))
          /\ forall (now2 : Z) (stat2 : string -> option Z),
               now2 - now <= 29 ->
               let g1 := fst (check_directory_changes_periodic username now stat g) in
               check_directory_changes_periodic username now2 stat2 g1 = (g1, [])).
Proof.
  intros username stat g now. unfold check_directory_changes_periodic.
  split.
  - intros H. destruct (Z.ltb_spec (now - periodic_last_check g) 30); [reflexivity | lia].
  - intros H. destruct (Z.ltb_spec (now - periodic_last_check g) 30); [lia|].
    split; [reflexivity|].
    intros now2 stat2 H2. simpl.
    destruct (Z.ltb_spec (now2 - now) 30); [reflexivity | lia].
Qed.

Lemma periodic_rate_limit_witness :
  let g := set_watch_dirs initial_globals [mkWatch "/tmp" 3 100] in
  let r1 := check_directory_changes_periodic "root" 1000 (stat_example 200 200) g in
  check_directory_changes_periodic "root" 29 (stat_example 200 200) g = (g, [])
  /\ snd r1 = [change_record "root" (mkWatch "/tmp" 3 100)]
  /\ periodic_last_check (fst r1) = 1000
  /\ check_directory_changes_periodic "root" 1029 (stat_example 300 300) (fst r1)
     = (fst r1, []).
Proof.
  pose proof (periodic_rate_limit "root" (stat_example 200 200)
                (set_watch_dirs initial_globals [mkWatch "/tmp" 3 100]) 29) as [H0 _].
  pose proof (periodic_rate_limit "root" (stat_example 200 200)
                (set_watch_dirs initial_globals [mkWatch "/tmp" 3 100]) 1000) as [_ H].
  assert (H30 : 30 <= 1000 - periodic_last_check
                         (set_watch_dirs initial_globals [mkWatch "/tmp" 3 100]))
    by (simpl; lia).
  destruct (H H30) as [_ H2].
  split; [apply H0; simpl; lia|].
  split; [reflexivity|]. split; [reflexivity|].
  apply (H2 1029 (stat_example 300 300)). lia.
Defined.

(** ** read_config *)

Lemma fgets_chars_rest (n : nat) (stream : string) :
  (String.length (snd (fgets_chars n stream)) <= String.length stream)%nat.
Proof.
  revert stream; induction n as [|n IH]; intros stream; simpl.
  - lia.
  - destruct stream as [|c rest]; simpl; [lia|].
    destruct (Ascii.eqb c newline); simpl; [lia|].
    specialize (IH rest). destruct (fgets_chars n rest); simpl in *. lia.
Qed.

Lemma fgets_chars_consumes (n : nat) (c : ascii) (s : string) :
  (String.length (snd (fgets_chars (S n) (String c s))) < String.length (String c s))%nat.
Proof.
  simpl. destruct (Ascii.eqb c newline); simpl; [lia|].
  pose proof (fgets_chars_rest n s) as Hle.
  destruct (fgets_chars n s) as [l r]; simpl in *. lia.
Qed.

Lemma fgets_shortens (n : nat) (stream chars rest : string) :
  fgets (S (S n)) stream = Some (chars, rest) ->
  (String.length rest < String.length stream)%nat.
Proof.
  unfold fgets. destruct stream as [|c s]; [discriminate|].
  replace (S (S n) - 1)%nat with (S n) by lia.
  pose proof (fgets_chars_consumes n c s) as Hc.
  destruct (fgets_chars (S n) (String c s)) as [l r].
  intros H. inversion H; subst. exact Hc.
Qed.

Lemma fgets_consumes (stream chars rest : string) :
  fgets MAX_CONFIG_LINE stream = Some (chars, rest) ->
  (String.length rest < String.length stream)%nat.
Proof.
  exact (fgets_shortens 510 stream chars rest).
Qed.

(** The loop of [read_config] ends before its fuel does. *)
Lemma config_loop_fuel (fuel1 fuel2 : nat) (stream : string) (g : globals) :
  (String.length stream < fuel1)%nat ->
  (String.length stream < fuel2)%nat ->
  config_loop fuel1 stream g = config_loop fuel2 stream g.
Proof.
  revert fuel2 stream g; induction fuel1 as [|fuel1 IH]; intros fuel2 stream g H1 H2; [lia|].
  destruct fuel2 as [|fuel2]; [lia|].
  cbn [config_loop].
  destruct (fgets MAX_CONFIG_LINE stream) as [[chars rest]|] eqn:E; [|reflexivity].
  apply fgets_consumes in E. apply IH; lia.
Qed.



Lemma prefix_head (c d : ascii) (s t : string) :
  prefix (String c s) (String d t) = true -> d = c.
Proof.
  simpl. destruct (ascii_dec c d); [congruence | discriminate].
Qed.

(** ** The event buffer *)

Lemma byte_val_of (z : Z) : byte_val (byte_of z) = z mod 256.
Proof.
  unfold byte_val, byte_of.
  assert (H : 0 <= z mod 256 < 256) by (apply Z.mod_pos_bound; lia).
  rewrite N_ascii_embedding.
  - apply Z2N.id. lia.
  - change 256%N with (Z.to_N 256). apply Z2N.inj_lt; lia.
Qed.

Lemma le32_value (z : Z) :
  z mod 256 + 256 * ((z / 256) mod 256) + 65536 * ((z / 65536) mod 256)
  + 16777216 * ((z / 16777216) mod 256) = z mod 4294967296.
Proof.
  Z.div_mod_to_equations. lia.
Qed.

Lemma to_int_mod (z : Z) :
  -2147483648 <= z < 2147483648 -> to_int (z mod 4294967296) = z.
Proof.
  intros H. unfold to_int. Z.div_mod_to_equations. lia.
Qed.

Lemma to_int_id (z : Z) : -2147483648 <= z < 2147483648 -> to_int z = z.
Proof.
  intros H. unfold to_int. Z.div_mod_to_equations. lia.
Qed.

Lemma length_chars (s : string) :
  List.length (list_ascii_of_string s) = String.length s.
Proof.
  induction s as [|c s IH]; simpl; [reflexivity | now rewrite IH].
Qed.

Lemma length_le32 (z : Z) : List.length (le32 z) = 4%nat.
Proof. reflexivity. Qed.

Lemma length_encode (r : inotify_event) :
  Z.of_nat (List.length (encode r)) = record_size r.
Proof.
  unfold encode, record_size, ev_len, sizeof_inotify_event.
  rewrite !length_app, !length_le32, length_chars, repeat_length. lia.
Qed.

Lemma record_size_pos (r : inotify_event) : 16 <= record_size r.
Proof.
  unfold record_size, ev_len, sizeof_inotify_event. lia.
Qed.

Lemma total_size_nonneg (rs : list inotify_event) : 0 <= total_size rs.
Proof.
  induction rs as [|r rs IH]; simpl; [lia|]. pose proof (record_size_pos r). lia.
Qed.

Lemma ptr_app (pre x : list ascii) : ptr (pre ++ x) (Z.of_nat (List.length pre)) = x.
Proof.
  unfold ptr. destruct (Z.ltb_spec (Z.of_nat (List.length pre)) 0); [lia|].
  rewrite Nat2Z.id. rewrite skipn_app, skipn_all, Nat.sub_diag. reflexivity.
Qed.

Lemma ptr_add (buffer : list ascii) (i : Z) (n : nat) :
  0 <= i -> ptr buffer (i + Z.of_nat n) = skipn n (ptr buffer i).
Proof.
  intros Hi. unfold ptr.
  destruct (Z.ltb_spec (i + Z.of_nat n) 0); [lia|].
  destruct (Z.ltb_spec i 0); [lia|].
  rewrite skipn_skipn. f_equal. lia.
Qed.

(** What the header fields read when the bytes at offset [i] are those of the
    record [r]. *)
Section Record_at.

Variables (buffer rest : list ascii) (i : Z) (r : inotify_event).
Hypothesis Hi : 0 <= i.
Hypothesis Hat : ptr buffer i = encode r ++ rest.

Lemma event_wd_at :
  -2147483648 <= ev_wd r < 2147483648 -> fst (event_wd buffer i) = ev_wd r.
Proof.
  intros H. unfold event_wd, load_u32, peek. rewrite Hat. cbn.
  rewrite !byte_val_of, le32_value. apply to_int_mod. exact H.
Qed.

Lemma event_mask_at :
  0 <= ev_mask r < 4294967296 -> fst (event_mask buffer i) = ev_mask r.
Proof.
  intros H. unfold event_mask, load_u32, peek. rewrite Hat. cbn.
  rewrite !byte_val_of, le32_value. apply Z.mod_small. exact H.
Qed.

Lemma event_len_at :
  ev_len r < 4294967296 -> fst (event_len buffer i) = ev_len r.
Proof.
  intros H. unfold event_len, load_u32, peek. rewrite Hat. cbn.
  rewrite !byte_val_of, le32_value. apply Z.mod_small.
  unfold ev_len in *. lia.
Qed.

Lemma name_at :
  ptr buffer (i + sizeof_inotify_event)
  = list_ascii_of_string (ev_name r) ++ repeat NUL (ev_pad r) ++ rest.
Proof.
  change sizeof_inotify_event with (Z.of_nat 16).
  rewrite ptr_add by exact Hi. rewrite Hat. unfold encode, le32. cbn [app skipn].
  rewrite <- app_assoc. reflexivity.
Qed.

Lemma next_at : ptr buffer (i + record_size r) = rest.
Proof.
  rewrite <- length_encode. rewrite ptr_add by exact Hi. rewrite Hat.
  rewrite skipn_app, skipn_all, Nat.sub_diag. reflexivity.
Qed.

End Record_at.

Lemma within_span (lo hi o : Z) (n : nat) :
  lo <= o -> o + Z.of_nat n <= hi -> within lo hi (span o n).
Proof.
  revert o; induction n as [|n IH]; intros o Hlo Hhi; simpl.
  - constructor.
  - constructor; [lia|]. apply IH; lia.
Qed.

Lemma within_app (lo hi : Z) (l1 l2 : list Z) :
  within lo hi l1 -> within lo hi l2 -> within lo hi (l1 ++ l2).
Proof.
  intros H1 H2. apply Forall_app. split; assumption.
Qed.

Lemma within_weaken (lo hi lo' hi' : Z) (l : list Z) :
  lo' <= lo -> hi <= hi' -> within lo hi l -> within lo' hi' l.
Proof.
  intros Hlo Hhi H. eapply Forall_impl; [|exact H]. simpl. intros; lia.
Qed.

Lemma no_NUL_cons (c : ascii) (s : string) :
  no_NUL (String c s) = true -> Ascii.eqb c NUL = false /\ no_NUL s = true.
Proof.
  unfold no_NUL. simpl. rewrite andb_true_iff, negb_true_iff. tauto.
Qed.

(** [strcmp] of a NUL-terminated name field with a constant: whether the
    name is the constant, read from the name and its terminator alone. *)
Lemma strcmp_eq_name (s : string) :
  no_NUL s = true ->
  forall (name : string) (pad : nat) (rest : list ascii) (o : Z),
    no_NUL name = true ->
    (1 <= pad)%nat ->
    let r := strcmp_eq (list_ascii_of_string name ++ repeat NUL pad ++ rest) o s in
    fst r = String.eqb name s
    /\ within o (o + Z.of_nat (String.length name) + 1) (snd r).
Proof.
  induction s as [|c s IH]; intros Hs name pad rest o Hname Hpad.
  - destruct name as [|a name]; simpl.
    + destruct pad as [|pad]; [lia|]. simpl. split; [reflexivity|].
      constructor; [lia | constructor].
    + apply no_NUL_cons in Hname. destruct Hname as [Ha _]. unfold peek. simpl.
      rewrite Ha. split; [reflexivity|]. constructor; [lia | constructor].
  - apply no_NUL_cons in Hs. destruct Hs as [Hc Hs].
    destruct name as [|a name].
    + destruct pad as [|pad]; [lia|].
      cbn [list_ascii_of_string app repeat strcmp_eq peek nth].
      rewrite Ascii.eqb_sym, Hc. cbn [fst snd String.eqb String.length].
      split; [reflexivity|]. constructor; [lia | constructor].
    + apply no_NUL_cons in Hname. destruct Hname as [_ Hname].
      cbn [list_ascii_of_string app strcmp_eq peek nth tl String.eqb].
      destruct (Ascii.eqb a c).
      * destruct (IH Hs name pad rest (o + 1) Hname Hpad) as [E W].
        cbn [fst snd]. split; [exact E|].
        constructor; [simpl String.length; lia|].
        eapply within_weaken; [| |exact W]; simpl String.length; lia.
      * cbn [fst snd]. split; [reflexivity|].
        constructor; [simpl String.length; lia | constructor].
Qed.

Lemma c_string_name (name : string) (pad : nat) (rest : list ascii) :
  no_NUL name = true ->
  (1 <= pad)%nat ->
  c_string (list_ascii_of_string name ++ repeat NUL pad ++ rest) = name.
Proof.
  intros Hname Hpad. induction name as [|a name IH]; simpl.
  - destruct pad as [|pad]; [lia|]. reflexivity.
  - apply no_NUL_cons in Hname. destruct Hname as [Ha Hname].
    rewrite Ha, (IH Hname). reflexivity.
Qed.

Lemma event_type_length (mask : Z) : (String.length (event_type mask) <= 12)%nat.
Proof.
  unfold event_type.
  repeat match goal with |- context [if ?b then _ else _] => destruct b end;
    simpl; lia.
Qed.

Lemma well_formed_spec (r : inotify_event) :
  well_formed r = true ->
  -2147483648 <= ev_wd r < 2147483648
  /\ 0 <= ev_mask r < 4294967296
  /\ no_NUL (ev_name r) = true
  /\ (String.length (ev_name r) <= 255)%nat
  /\ (ev_len r = 0 \/ (1 <= ev_pad r)%nat).
Proof.
  unfold well_formed. rewrite !andb_true_iff, orb_true_iff.
  rewrite !Z.leb_le, !Z.ltb_lt, Z.eqb_eq, !Nat.leb_le. tauto.
Qed.

(** ** Decoding well-formed records *)

Ltac within_spans :=
  repeat (apply within_app);
  try (apply within_span; unfold sizeof_inotify_event, ev_len in *; simpl Z.of_nat; lia);
  try constructor.

Lemma log_event_at (username : string) (w : watch_dir_t) (buffer rest : list ascii)
    (i : Z) (r : inotify_event) :
  0 <= i ->
  ptr buffer i = encode r ++ rest ->
  well_formed r = true ->
  ev_len r < 4294967296 ->
  (String.length (path w) < MAX_PATH_LEN)%nat ->
  fst (log_event username w buffer i) = report_entry username w r
  /\ within i (i + (sizeof_inotify_event + ev_len r)) (snd (log_event username w buffer i)).
Proof.
  intros Hi Hat Hwf Hlen Hpath.
  destruct (well_formed_spec r Hwf) as (Hwd & Hmask & Hnn & Hnl & Hpad).
  assert (Elen : event_len buffer i = (ev_len r, span (i + 12) 4)).
  { rewrite (surjective_pairing (event_len buffer i)).
    rewrite (event_len_at buffer rest i r Hat Hlen). reflexivity. }
  assert (Emask : event_mask buffer i = (ev_mask r, span (i + 4) 4)).
  { rewrite (surjective_pairing (event_mask buffer i)).
    rewrite (event_mask_at buffer rest i r Hat Hmask). reflexivity. }
  unfold MAX_PATH_LEN in Hpath. pose proof (event_type_length (ev_mask r)) as Het.
  unfold log_event, report_entry. rewrite Elen, Emask. unfold bind, ret. cbn [fst snd].
  destruct (Z.ltb_spec 0 (ev_len r)) as [Hpos|Hzero].
  - assert (Hpad' : (1 <= ev_pad r)%nat) by lia.
    rewrite (name_at buffer rest i r Hi Hat).
    destruct (strcmp_eq_name "system_logger.log" eq_refl (ev_name r) (ev_pad r) rest
                (i + sizeof_inotify_event) Hnn Hpad') as [E W].
    destruct (strcmp_eq _ _ _) as [own fp]. cbn [fst snd] in E, W. subst own.
    assert (W' : within i (i + (sizeof_inotify_event + ev_len r)) fp).
    { eapply within_weaken; [| |exact W]; unfold sizeof_inotify_event, ev_len; lia. }
    cbn [andb fst snd].
    destruct (String.eqb (ev_name r) "system_logger.log").
    + cbn [fst snd]. split; [reflexivity|]. within_spans. exact W'.
    + unfold event_name. rewrite (name_at buffer rest i r Hi Hat).
      rewrite (c_string_name (ev_name r) (ev_pad r) rest Hnn Hpad').
      cbn [fst snd]. rewrite snprintf_fits.
      * split; [reflexivity|]. within_spans. exact W'.
      * rewrite !length_append. simpl String.length. lia.
  - cbn [andb fst snd]. rewrite snprintf_fits.
    + split; [reflexivity|]. within_spans.
    + rewrite !length_append. simpl String.length. lia.
Qed.

Lemma scan_watch_dirs_at (username : string) (ws : list watch_dir_t)
    (buffer rest : list ascii) (i : Z) (r : inotify_event) :
  0 <= i ->
  ptr buffer i = encode r ++ rest ->
  well_formed r = true ->
  ev_len r < 4294967296 ->
  paths_fit ws ->
  fst (scan_watch_dirs username ws buffer i) = report username ws r
  /\ within i (i + (sizeof_inotify_event + ev_len r))
            (snd (scan_watch_dirs username ws buffer i)).
Proof.
  intros Hi Hat Hwf Hlen Hfit.
  destruct (well_formed_spec r Hwf) as (Hwd & _).
  assert (Ewd : event_wd buffer i = (ev_wd r, span i 4)).
  { rewrite (surjective_pairing (event_wd buffer i)).
    rewrite (event_wd_at buffer rest i r Hat Hwd). reflexivity. }
  unfold report.
  induction ws as [|w ws IH]; cbn [scan_watch_dirs find].
  - split; [reflexivity | constructor].
  - inversion Hfit as [|w' ws' Hw Hws]; subst.
    rewrite Ewd. unfold bind. cbn [fst snd].
    destruct (wd w =? ev_wd r).
    + destruct (log_event_at username w buffer rest i r Hi Hat Hwf Hlen Hw) as [E W].
      split; [exact E|]. apply within_app; [|exact W].
      apply within_span; unfold sizeof_inotify_event, ev_len; lia.
    + destruct (IH Hws) as [E W]. split; [exact E|].
      apply within_app; [|exact W].
      apply within_span; unfold sizeof_inotify_event, ev_len; lia.
Qed.

(** The loop over a run of well-formed records: it ends, with one iteration
    per record. *)
Lemma decode_loop_records (username : string) (ws : list watch_dir_t)
    (buffer : list ascii) (length : Z) :
  paths_fit ws ->
  length < 2147483648 ->
  forall (rs : list inotify_event) (stale : list ascii) (i : Z) (fuel : nat),
    0 <= i ->
    ptr buffer i = encode_all rs ++ stale ->
    length = i + total_size rs ->
    forallb well_formed rs = true ->
    (List.length rs < fuel)%nat ->
    exists trace,
      decode_loop fuel username ws buffer length i = Some trace
      /\ decodes_all username ws i rs trace.
Proof.
  intros Hfit Hint rs. induction rs as [|r rs IH]; intros stale i fuel Hi Hat Hlen Hwf Hfuel.
  - destruct fuel as [|fuel]; [simpl in Hfuel; lia|]. simpl in Hlen.
    exists []. cbn [decode_loop].
    destruct (Z.ltb_spec i length); [lia|]. split; [reflexivity | exact I].
  - destruct fuel as [|fuel]; [simpl in Hfuel; lia|].
    cbn [forallb] in Hwf. apply andb_true_iff in Hwf. destruct Hwf as [Hr Hrs].
    cbn [total_size fold_right] in Hlen. fold (total_size rs) in Hlen.
    pose proof (total_size_nonneg rs) as Hnn.
    pose proof (record_size_pos r) as Hpos.
    cbn [encode_all flat_map] in Hat. fold (encode_all rs) in Hat.
    rewrite <- app_assoc in Hat.
    assert (Hl : ev_len r < 4294967296)
      by (unfold record_size, sizeof_inotify_event in *; lia).
    destruct (scan_watch_dirs_at username ws buffer _ i r Hi Hat Hr Hl Hfit) as [E W].
    pose proof (event_len_at buffer _ i r Hat Hl) as El.
    assert (Enext : to_int (i + (sizeof_inotify_event + fst (event_len buffer i)))
                    = i + record_size r).
    { rewrite El. unfold record_size, sizeof_inotify_event in *. rewrite to_int_id; lia. }
    destruct (IH stale (i + record_size r) fuel) as (trace & Hdec & Hall).
    + lia.
    + apply (next_at buffer _ i r Hi Hat).
    + lia.
    + exact Hrs.
    + simpl in Hfuel. lia.
    + cbn [decode_loop]. destruct (Z.ltb_spec i length); [|lia].
      rewrite Enext, Hdec. eexists. split; [reflexivity|].
      cbn [decodes_all]. split; [|exact Hall].
      unfold decodes. cbn [it_offset it_next it_reads it_logs].
      split; [reflexivity|]. split; [unfold record_size; reflexivity|].
      split; [exact E|].
      apply within_app; [exact W|].
      apply within_span; unfold sizeof_inotify_event, ev_len; lia.
Qed.

Lemma decodes_all_length (username : string) (ws : list watch_dir_t)
    (rs : list inotify_event) :
  forall (i : Z) (trace : list iteration),
    decodes_all username ws i rs trace -> List.length trace = List.length rs.
Proof.
  induction rs as [|r rs IH]; intros i [|it trace] H; simpl in H; try contradiction.
  - reflexivity.
  - destruct H as [_ H]. simpl. f_equal. exact (IH _ _ H).
Qed.

Lemma decodes_all_reads (username : string) (ws : list watch_dir_t)
    (rs : list inotify_event) :
  forall (i : Z) (trace : list iteration),
    decodes_all username ws i rs trace ->
    within i (i + total_size rs) (reads_of trace).
Proof.
  induction rs as [|r rs IH]; intros i [|it trace] H; simpl in H; try contradiction.
  - constructor.
  - destruct H as [(_ & _ & _ & Hr) H].
    pose proof (total_size_nonneg rs) as Hnn. pose proof (record_size_pos r) as Hpos.
    unfold reads_of. cbn [flat_map total_size fold_right]. fold (total_size rs).
    fold (reads_of trace). apply within_app.
    + eapply within_weaken; [| |exact Hr]; unfold record_size in *; lia.
    + eapply within_weaken; [| |exact (IH _ _ H)]; lia.
Qed.

Lemma decodes_all_logs (username : string) (ws : list watch_dir_t)
    (rs : list inotify_event) :
  forall (i : Z) (trace : list iteration),
    decodes_all username ws i rs trace ->
    logs_of trace = flat_map (report username ws) rs.
Proof.
  induction rs as [|r rs IH]; intros i [|it trace] H; simpl in H; try contradiction.
  - reflexivity.
  - destruct H as [(_ & _ & Hl & _) H]. unfold logs_of. cbn [flat_map].
    rewrite Hl. f_equal. exact (IH _ _ H).
Qed.

Lemma total_size_app (rs1 rs2 : list inotify_event) :
  total_size (rs1 ++ rs2) = total_size rs1 + total_size rs2.
Proof.
  induction rs1 as [|r rs1 IH]; simpl; [reflexivity|].
  fold (total_size (rs1 ++ rs2)). fold (total_size rs1). lia.
Qed.

Lemma decodes_all_split (username : string) (ws : list watch_dir_t)
    (rs1 : list inotify_event) (r : inotify_event) (rs2 : list inotify_event) :
  forall (i : Z) (trace : list iteration),
    decodes_all username ws i (rs1 ++ r :: rs2) trace ->
    exists t1 it t2,
      trace = t1 ++ it :: t2
      /\ decodes_all username ws i rs1 t1
      /\ decodes username ws (i + total_size rs1) r it
      /\ decodes_all username ws (i + total_size rs1 + record_size r) rs2 t2.
Proof.
  induction rs1 as [|r1 rs1 IH]; intros i [|it trace] H; cbn [app decodes_all] in H;
    try contradiction.
  - destruct H as [Hd H]. exists [], it, trace. cbn [app decodes_all total_size fold_right].
    rewrite Z.add_0_r. split; [reflexivity|]. split; [exact I|]. split; [exact Hd | exact H].
  - destruct H as [Hd H]. destruct (IH _ _ H) as (t1 & it' & t2 & E & H1 & Hm & H2).
    exists (it :: t1), it', t2. subst trace.
    cbn [total_size fold_right]. fold (total_size rs1).
    replace (i + (record_size r1 + total_size rs1))
      with (i + record_size r1 + total_size rs1) by lia.
    split; [reflexivity|]. split; [|split; assumption].
    cbn [decodes_all]. split; assumption.
Qed.

Lemma scan_watch_dirs_unmatched (username : string) (ws : list watch_dir_t)
    (buffer : list ascii) (i : Z) :
  (forall w, In w ws -> wd w <> fst (event_wd buffer i)) ->
  fst (scan_watch_dirs username ws buffer i) = [].
Proof.
  induction ws as [|w ws IH]; intros H; cbn [scan_watch_dirs].
  - reflexivity.
  - unfold bind. cbn [fst].
    destruct (Z.eqb_spec (wd w) (fst (event_wd buffer i))) as [E|E].
    + exfalso. exact (H w (or_introl eq_refl) E).
    + apply IH. intros w' Hin. apply H. right. exact Hin.
Qed.

Lemma report_unmatched (username : string) (ws : list watch_dir_t) (r : inotify_event) :
  (forall w, In w ws -> wd w <> ev_wd r) -> report username ws r = [].
Proof.
  intros H. unfold report.
  destruct (find (fun w => wd w =? ev_wd r) ws) as [w|] eqn:E; [|reflexivity].
  apply find_some in E. destruct E as [Hin E]. apply Z.eqb_eq in E.
  exfalso. exact (H w Hin E).
Qed.

(** C1, for the buffers the notification channel delivers.  When the
    declared length is filled exactly by N well-formed back-to-back records,
    the decoder ends after N iterations, one per record and in order; each
    starts at its record, advances the cursor by exactly the header size plus
    the record's name length (also when that length is 0), makes the calls
    owed for the record's handle, kind and entry name, and reads only bytes
    of its own record; no byte at or past the declared length is read. *)
Theorem decode_well_formed_buffer :
  forall (username : string) (g : globals) (rs : list inotify_event)
         (stale : list ascii) (fuel : nat),
    0 <= inotify_fd g ->
    paths_fit (watch_dirs g) ->
    forallb well_formed rs = true ->
    total_size rs <= 4096 ->
    (List.length rs < fuel)%nat ->
    exists trace,
      check_directory_changes fuel username g
        (Some (encode_all rs ++ stale, total_size rs)) = Some trace
      /\ List.length trace = List.length rs
      /\ decodes_all username (watch_dirs g) 0 rs trace
      /\ logs_of trace = flat_map (report username (watch_dirs g)) rs
      /\ within 0 (total_size rs) (reads_of trace).
Proof.
  intros username g rs stale fuel Hfd Hfit Hwf Hsize Hfuel.
  unfold check_directory_changes.
  destruct (Z.ltb_spec (inotify_fd g) 0); [lia|].
  assert (Hdec : exists trace,
             decode_loop fuel username (watch_dirs g) (encode_all rs ++ stale)
               (total_size rs) 0 = Some trace
             /\ decodes_all username (watch_dirs g) 0 rs trace).
  { apply (decode_loop_records username (watch_dirs g) (encode_all rs ++ stale)
             (total_size rs) Hfit) with (stale := stale); try assumption; try lia.
    reflexivity. }
  destruct Hdec as (trace & Hdec & Hall).
  assert (Hres : (if 0 <? total_size rs
                  then decode_loop fuel username (watch_dirs g) (encode_all rs ++ stale)
                         (total_size rs) 0
                  else Some []) = Some trace).
  { destruct (Z.ltb_spec 0 (total_size rs)) as [Hp|Hz]; [exact Hdec|].
    destruct rs as [|r rs].
    - simpl in Hall. destruct trace; [reflexivity | contradiction].
    - pose proof (record_size_pos r). pose proof (total_size_nonneg rs).
      cbn [total_size fold_right] in Hz. fold (total_size rs) in Hz. lia. }
  exists trace. split; [exact Hres|].
  split; [exact (decodes_all_length _ _ _ _ _ Hall)|].
  split; [exact Hall|].
  split; [exact (decodes_all_logs _ _ _ _ _ Hall)|].
  exact (decodes_all_reads _ _ _ _ _ Hall).
Qed.

Lemma decode_well_formed_buffer_witness :
  exists trace,
    check_directory_changes 4 "root" example_globals
      (Some (encode_all example_events ++ repeat NUL 8, total_size example_events))
    = Some trace
    /\ List.length trace = List.length example_events
    /\ decodes_all "root" (watch_dirs example_globals) 0 example_events trace
    /\ logs_of trace = flat_map (report "root" (watch_dirs example_globals)) example_events
    /\ within 0 (total_size example_events) (reads_of trace).
Proof.
  apply (decode_well_formed_buffer "root" example_globals example_events (repeat NUL 8) 4).
  - simpl. lia.
  - repeat constructor; simpl; unfold MAX_PATH_LEN; lia.
  - reflexivity.
  - vm_compute. discriminate.
  - simpl. lia.
Defined.

(** The scenario of the design document: /tmp watched under handle 7, one
    record for the creation of foo.txt. *)
Example foo_txt_created :
  option_map logs_of
    (check_directory_changes 2 "root" example_globals
       (Some (encode (mkEvent 7 IN_CREATE 0 "foo.txt" 9), 32)))
  = Some [mkCall "root" "/tmp: creation of file foo.txt" LOG_INFO].
Proof. vm_compute. reflexivity. Qed.

(** C1 as stated fails on a buffer the records do not fill: with a declared
    length of 1 the loop takes the byte at offset 0 for the start of a
    record and reads the handle and the length field, offsets 1 to 3 and 12
    to 15, past the declared length. *)
Lemma short_buffer_read_past_length :
  check_directory_changes 2 "root" example_globals (Some (repeat NUL 4096, 1))
  = Some [ {| it_offset := 0; it_next := 16;
              it_reads := [0; 1; 2; 3; 0; 1; 2; 3; 0; 1; 2; 3; 12; 13; 14; 15];
              it_logs := [] |} ]
  /\ ~ within 0 1 [0; 1; 2; 3; 0; 1; 2; 3; 0; 1; 2; 3; 12; 13; 14; 15].
Proof.
  split.
  - vm_compute. reflexivity.
  - intros H. inversion H as [|o l _ Hrest]; subst.
    inversion Hrest as [|o' l' Hone _]; subst. lia.
Qed.

(** C10.  An event whose handle is that of no entry of the table makes no
    call, and the loop goes on at the cursor moved by the header size plus
    the name length.  In a buffer of well-formed records the iteration of
    such a record emits nothing and ends at the start of the next record,
    and the records after it are decoded as they are without it. *)
Theorem unmatched_handle_discarded :
  forall (username : string) (ws : list watch_dir_t),
    (forall (fuel : nat) (buffer : list ascii) (length i : Z),
        i < length ->
        (forall w, In w ws -> wd w <> fst (event_wd buffer i)) ->
        let i' := to_int (i + (sizeof_inotify_event + fst (event_len buffer i))) in
        exists reads,
          decode_loop (S fuel) username ws buffer length i
          = option_map
              (cons {| it_offset := i; it_next := i'; it_reads := reads; it_logs := [] |})
              (decode_loop fuel username ws buffer length i'))
    /\ (forall (rs1 : list inotify_event) (r : inotify_event) (rs2 : list inotify_event)
               (stale : list ascii) (fuel : nat),
          paths_fit ws ->
          forallb well_formed (rs1 ++ r :: rs2) = true ->
          total_size (rs1 ++ r :: rs2) <= 4096 ->
          (List.length (rs1 ++ r :: rs2) < fuel)%nat ->
          (forall w, In w ws -> wd w <> ev_wd r) ->
          exists t1 it t2,
            decode_loop fuel username ws (encode_all (rs1 ++ r :: rs2) ++ stale)
              (total_size (rs1 ++ r :: rs2)) 0 = Some (t1 ++ it :: t2)
            /\ decodes_all username ws 0 rs1 t1
            /\ it_offset it = total_size rs1
            /\ it_logs it = []
            /\ it_next it = total_size rs1 + (sizeof_inotify_event + ev_len r)
            /\ decodes_all username ws (total_size rs1 + record_size r) rs2 t2).
Proof.
  intros username ws. split.
  - intros fuel buffer length i Hlt Hno i'.
    exists (snd (scan_watch_dirs username ws buffer i) ++ snd (event_len buffer i)).
    cbn [decode_loop]. destruct (Z.ltb_spec i length); [|lia].
    rewrite (scan_watch_dirs_unmatched username ws buffer i Hno). fold i'.
    destruct (decode_loop fuel username ws buffer length i'); reflexivity.
  - intros rs1 r rs2 stale fuel Hfit Hwf Hsize Hfuel Hno.
    destruct (decode_loop_records username ws (encode_all (rs1 ++ r :: rs2) ++ stale)
                (total_size (rs1 ++ r :: rs2)) Hfit ltac:(lia)
                (rs1 ++ r :: rs2) stale 0 fuel ltac:(lia) eq_refl eq_refl Hwf Hfuel)
      as (trace & Hdec & Hall).
    destruct (decodes_all_split username ws rs1 r rs2 0 trace Hall)
      as (t1 & it & t2 & E & H1 & (Ho & Hn & Hl & _) & H2).
    exists t1, it, t2. subst trace. rewrite Z.add_0_l in *.
    split; [exact Hdec|]. split; [exact H1|]. split; [exact Ho|].
    split; [rewrite Hl; apply report_unmatched; exact Hno|].
    split; [exact Hn | exact H2].
Qed.

Lemma unmatched_handle_discarded_witness :
  (exists reads,
      decode_loop 2 "root" (watch_dirs example_globals)
        (encode (mkEvent 9 IN_DELETE 0 "gone" 12)) 32 0
      = option_map
          (cons {| it_offset := 0; it_next := 32; it_reads := reads; it_logs := [] |})
          (decode_loop 1 "root" (watch_dirs example_globals)
             (encode (mkEvent 9 IN_DELETE 0 "gone" 12)) 32 32))
  /\ exists t1 it t2,
    decode_loop 4 "root" (watch_dirs example_globals)
      (encode_all ([mkEvent 9 IN_DELETE 0 "gone" 12]
                   ++ mkEvent 9 IN_DELETE 0 "gone" 12 :: [mkEvent 7 IN_CREATE 0 "foo.txt" 9])
       ++ [])
      (total_size ([mkEvent 9 IN_DELETE 0 "gone" 12]
                   ++ mkEvent 9 IN_DELETE 0 "gone" 12 :: [mkEvent 7 IN_CREATE 0 "foo.txt" 9]))
      0 = Some (t1 ++ it :: t2)
    /\ decodes_all "root" (watch_dirs example_globals) 0 [mkEvent 9 IN_DELETE 0 "gone" 12] t1
    /\ it_offset it = total_size [mkEvent 9 IN_DELETE 0 "gone" 12]
    /\ it_logs it = []
    /\ it_next it = total_size [mkEvent 9 IN_DELETE 0 "gone" 12]
                    + (sizeof_inotify_event + ev_len (mkEvent 9 IN_DELETE 0 "gone" 12))
    /\ decodes_all "root" (watch_dirs example_globals)
         (total_size [mkEvent 9 IN_DELETE 0 "gone" 12]
          + record_size (mkEvent 9 IN_DELETE 0 "gone" 12))
         [mkEvent 7 IN_CREATE 0 "foo.txt" 9] t2.
Proof.
  split.
  { apply (proj1 (unmatched_handle_discarded "root" (watch_dirs example_globals))
             1%nat (encode (mkEvent 9 IN_DELETE 0 "gone" 12)) 32 0).
    - lia.
    - simpl. intros w [H|[H|[H|[]]]]; subst w; vm_compute; discriminate. }
  apply (proj2 (unmatched_handle_discarded "root" (watch_dirs example_globals))
           [mkEvent 9 IN_DELETE 0 "gone" 12] (mkEvent 9 IN_DELETE 0 "gone" 12)
           [mkEvent 7 IN_CREATE 0 "foo.txt" 9] [] 4%nat).
  - repeat constructor; simpl; unfold MAX_PATH_LEN; lia.
  - reflexivity.
  - vm_compute. discriminate.
  - simpl. lia.
  - simpl. intros w [H|[H|[H|[]]]]; subst w; simpl; lia.
Defined.

(** C2 at an event of /tmp that names a file called like the log file: the
    loop leaves the table at the name test, before any call, although the
    directory is not the log directory; the same event under another name is
    reported. *)
Theorem same_name_outside_log_directory :
  option_map logs_of
    (check_directory_changes 2 "root" example_globals
       (Some (encode (mkEvent 7 IN_CREATE 0 "system_logger.log" 15), 48)))
  = Some []
  /\ option_map logs_of
       (check_directory_changes 2 "root" example_globals
          (Some (encode (mkEvent 7 IN_CREATE 0 "system_logger.txt" 15), 48)))
     = Some [mkCall "root" "/tmp: creation of file system_logger.txt" LOG_INFO].
Proof.
  split; vm_compute; reflexivity.
Qed.

(** The name test of line 201 does not look at the directory: for every
    entry of the table, a record is dropped exactly when it has a name field
    and the name is that of the log file. *)
Lemma suppressed_by_name_alone (username : string) (w : watch_dir_t) (r : inotify_event) :
  report_entry username w r = []
  <-> (0 < ev_len r /\ ev_name r = "system_logger.log").
Proof.
  unfold report_entry.
  destruct (Z.ltb_spec 0 (ev_len r)) as [Hp|Hz]; cbn [andb].
  - destruct (String.eqb_spec (ev_name r) "system_logger.log") as [E|E].
    + split; [intros _; split; assumption | reflexivity].
    + split; [discriminate | intros [_ H]; contradiction].
  - split; [discriminate | intros [H _]; lia].
Qed.

(** The loop relies on the [len] field to move on: a header whose [len] is
    2^32 - 16 brings the cursor back to where it was, and the loop does not
    end. *)
Lemma decode_loop_may_not_end (fuel : nat) :
  decode_loop fuel "root" [] (le32 0 ++ le32 0 ++ le32 0 ++ le32 4294967280) 16 0 = None.
Proof.
  induction fuel as [|fuel IH]; [reflexivity|].
  cbn [decode_loop].
  change (0 <? 16) with true. cbv iota.
  replace (to_int (0 + (sizeof_inotify_event
             + fst (event_len (le32 0 ++ le32 0 ++ le32 0 ++ le32 4294967280) 0))))
    with 0 by (vm_compute; reflexivity).
  rewrite IH. reflexivity.
Qed.

(** The scenario of the design document, down to the sinks. *)
Example foo_txt_logged :
  match check_directory_changes 2 "root" example_globals
          (Some (encode (mkEvent 7 IN_CREATE 0 "foo.txt" 9), 32)) with
  | Some trace =>
      let g := deliver "2024-05-01 10:00:00" (logs_of trace) example_globals in
      log_file g
      = Some (mkFILE ("[2024-05-01 10:00:00] [INFO] [root] /tmp: creation of file foo.txt"
                        ++ String newline "")%string "")
      /\ syslog_out g = [(LOG_INFO, "[root] /tmp: creation of file foo.txt")]
  | None => False
  end.
Proof. vm_compute. split; reflexivity. Qed.

(** * Further properties of the program *)

(** ** The log sinks over a run *)

Lemma string_app_assoc (s t u : string) : ((s ++ t) ++ u = s ++ (t ++ u))%string.
Proof.
  induction s as [|c s IH]; simpl; [reflexivity | now rewrite IH].
Qed.

Lemma string_app_assoc_rev (s t u : string) : (s ++ (t ++ u) = (s ++ t) ++ u)%string.
Proof. symmetry. apply string_app_assoc. Qed.

Lemma string_app_nil_r (s : string) : (s ++ "")%string = s.
Proof.
  induction s as [|c s IH]; simpl; [reflexivity | now rewrite IH].
Qed.

Lemma deliver_cons (time_str : string) (c : log_call) (calls : list log_call) (g : globals) :
  deliver time_str (c :: calls) g
  = deliver time_str calls
      (log_message time_str (call_username c) (call_message c) (call_priority c) g).
Proof. reflexivity. Qed.

(** The state after [deliver], field by field. *)
Lemma deliver_fields (time_str : string) (calls : list log_call) :
  forall g : globals,
    let g' := deliver time_str calls g in
    log_file g' =
      match log_file g, calls with
      | Some f, _ :: _ =>
          Some (mkFILE (written f ++ (buffered f ++ file_lines time_str calls))%string "")
      | lf, _ => lf
      end
    /\ syslog_out g' =
         (if use_syslog g then syslog_out g ++ syslog_entries calls else syslog_out g)
    /\ use_syslog g' = use_syslog g
    /\ log_interval g' = log_interval g
    /\ inotify_fd g' = inotify_fd g
    /\ watch_dirs g' = watch_dirs g
    /\ periodic_last_check g' = periodic_last_check g.
Proof.
  induction calls as [|c calls IH]; intros g; cbv zeta.
  - simpl. destruct (log_file g), (use_syslog g); rewrite ?app_nil_r; repeat split.
  - rewrite deliver_cons.
    set (g1 := log_message time_str (call_username c) (call_message c) (call_priority c) g).
    destruct (IH g1) as (Hf & Hs & Hu & Hi & Hfd & Hw & Hp).
    assert (E1 : log_file g1 =
                 match log_file g with
                 | Some f =>
                     Some (mkFILE (written f ++ (buffered f
                                     ++ file_line time_str (call_username c) (call_message c)
                                          (call_priority c)))%string "")
                 | None => None
                 end
                 /\ syslog_out g1 =
                      (if use_syslog g
                       then syslog_out g
                              ++ [(call_priority c,
                                   syslog_text (call_username c) (call_message c))]
                       else syslog_out g)
                 /\ use_syslog g1 = use_syslog g /\ log_interval g1 = log_interval g
                 /\ inotify_fd g1 = inotify_fd g /\ watch_dirs g1 = watch_dirs g
                 /\ periodic_last_check g1 = periodic_last_check g).
    { subst g1. unfold log_message. destruct g as [lf li fd us ws plc so]; simpl.
      destruct lf as [f|]; destruct us; simpl; repeat split. }
    destruct E1 as (E1 & E2 & E3 & E4 & E5 & E6 & E7).
    rewrite Hf, Hs, Hu, Hi, Hfd, Hw, Hp, E1, E2, E3, E4, E5, E6, E7.
    split; [| split; [| repeat split]].
    + destruct (log_file g) as [f|]; [|destruct calls; reflexivity].
      cbn [file_lines]. destruct calls as [|c' calls].
      * cbn [file_lines]. rewrite string_app_nil_r. reflexivity.
      * cbn [written buffered]. cbn [append]. rewrite !string_app_assoc. reflexivity.
    + destruct (use_syslog g); [|reflexivity].
      cbn [syslog_entries map]. rewrite <- app_assoc. reflexivity.
Qed.



(** X2.  Logging touches the two sinks and nothing else: the interval, the
    channel descriptor, the forwarding flag, the watch table and the time of
    the last fallback scan are as before, and a closed log file is not
    opened. *)
Theorem deliver_frame :
  forall (time_str : string) (calls : list log_call) (g : globals),
    let g' := deliver time_str calls g in
    log_interval g' = log_interval g
    /\ inotify_fd g' = inotify_fd g
    /\ use_syslog g' = use_syslog g
    /\ watch_dirs g' = watch_dirs g
    /\ periodic_last_check g' = periodic_last_check g
    /\ (log_file g' = None <-> log_file g = None).
Proof.
  intros time_str calls g g'. subst g'.
  destruct (deliver_fields time_str calls g) as (Hf & _ & Hu & Hi & Hfd & Hw & Hp).
  repeat split; try assumption.
  - rewrite Hf. destruct (log_file g), calls; congruence.
  - intros E. rewrite Hf, E. destruct calls; reflexivity.
Qed.

Lemma deliver_frame_witness :
  log_file (deliver "2024-05-01 10:00:00" [mkCall "root" "one" LOG_INFO] initial_globals)
  = None.
Proof.
  destruct (deliver_frame "2024-05-01 10:00:00" [mkCall "root" "one" LOG_INFO]
              initial_globals) as (_ & _ & _ & _ & _ & H).
  exact (proj2 H eq_refl).
Defined.


(** X4.  Closing twice is closing once, and after the file is closed a call
    still reaches the system log when forwarding is enabled while no file is
    written. *)
Theorem close_log_file_idempotent :
  forall (g : globals),
    let g1 := fst (close_log_file g) in
    close_log_file g1 = (g1, None)
    /\ forall (time_str : string) (calls : list log_call),
         log_file (deliver time_str calls g1) = None
         /\ syslog_out (deliver time_str calls g1)
            = (if use_syslog g then syslog_out g ++ syslog_entries calls else syslog_out g).
Proof.
  intros g g1.
  assert (E : log_file g1 = None /\ use_syslog g1 = use_syslog g
              /\ syslog_out g1 = syslog_out g).
  { subst g1. unfold close_log_file. destruct (log_file g) eqn:El; simpl; auto. }
  destruct E as (E1 & E2 & E3).
  split.
  - unfold close_log_file. rewrite E1. reflexivity.
  - intros time_str calls.
    destruct (deliver_fields time_str calls g1) as (Hf & Hs & _).
    rewrite Hf, Hs, E1, E2, E3. split; [destruct calls; reflexivity | reflexivity].
Qed.

(** X5.  On SIGTERM or SIGINT the handler writes the termination record to
    both sinks while they are still open, closes the log file, which then
    holds what it held followed by that line, and ends the process with
    status 0; on any other signal it does nothing. *)
Theorem signal_handler_shutdown :
  forall (time_str : string) (getenv : string -> option string) (sig : Z) (g : globals),
    let username := get_username getenv in
    let text := "Termination signal received. Program is stopping." in
    let r := signal_handler time_str getenv sig g in
    (sig = SIGTERM \/ sig = SIGINT ->
       snd (fst r) = Some 0
       /\ log_file (fst (fst r)) = None
       /\ snd r = match log_file g with
                  | Some f =>
                      Some (written f ++ (buffered f
                              ++ file_line time_str username text LOG_INFO))%string
                  | None => None
                  end
       /\ syslog_out (fst (fst r))
          = (if use_syslog g
             then syslog_out g ++ [(LOG_INFO, syslog_text username text)]
             else syslog_out g))
    /\ (sig <> SIGTERM -> sig <> SIGINT -> r = (g, None, None)).
Proof.
  intros time_str getenv sig g username text r. subst r. unfold signal_handler.
  fold username. fold text. split.
  - intros Hsig.
    assert (E : (sig =? SIGTERM) || (sig =? SIGINT) = true).
    { destruct Hsig as [H|H]; subst sig; reflexivity. }
    rewrite E. cbn [fst snd]. unfold close_log_file, log_message.
    destruct g as [lf li fd us ws plc so]; simpl.
    destruct lf as [f|]; destruct us; simpl; rewrite ?string_app_nil_r; repeat split.
  - intros H1 H2.
    destruct (Z.eqb_spec sig SIGTERM); [contradiction|].
    destruct (Z.eqb_spec sig SIGINT); [contradiction|]. reflexivity.
Qed.

Lemma signal_handler_shutdown_witness :
  let getenv := fun v : string => if String.eqb v "USER" then Some "root" else None in
  let r := signal_handler "2024-05-01 10:00:00" getenv SIGTERM example_globals in
  (snd (fst r) = Some 0
   /\ log_file (fst (fst r)) = None
   /\ snd r = Some ("[2024-05-01 10:00:00] [INFO] [root] "
                    ++ "Termination signal received. Program is stopping."
                    ++ String newline "")%string
   /\ syslog_out (fst (fst r))
      = [(LOG_INFO, "[root] Termination signal received. Program is stopping.")])
  /\ signal_handler "2024-05-01 10:00:00" getenv 1 example_globals
     = (example_globals, None, None).
Proof.
  pose (getenv := fun v : string => if String.eqb v "USER" then Some "root" else None).
  destruct (signal_handler_shutdown "2024-05-01 10:00:00" getenv SIGTERM example_globals)
    as [H _].
  destruct (signal_handler_shutdown "2024-05-01 10:00:00" getenv 1 example_globals)
    as [_ H'].
  split.
  - exact (H (or_introl eq_refl)).
  - apply H'; unfold SIGTERM, SIGINT; lia.
Defined.

Lemma no_newline_app (s t : string) :
  no_newline (s ++ t) = no_newline s && no_newline t.
Proof.
  unfold no_newline. induction s as [|c s IH]; simpl; [reflexivity|].
  rewrite IH, andb_assoc. reflexivity.
Qed.

(** X6.  One call writes one line: when the time stamp, the user name and
    the message hold no newline, the line written to the file has its only
    newline at its end. *)
Theorem file_line_single_line :
  forall (time_str username message : string) (priority : Z),
    no_newline time_str = true ->
    no_newline username = true ->
    no_newline message = true ->
    exists body,
      file_line time_str username message priority = (body ++ String newline "")%string
      /\ no_newline body = true.
Proof.
  intros time_str username message priority Ht Hu Hm.
  exists ("[" ++ time_str ++ "] [" ++ level_str priority ++ "] [" ++ username ++ "] "
              ++ message)%string.
  split.
  - unfold file_line. rewrite !string_app_assoc. reflexivity.
  - rewrite !no_newline_app, Ht, Hu, Hm.
    assert (Hl : no_newline (level_str priority) = true).
    { unfold level_str. destruct (priority =? LOG_WARNING); [reflexivity|].
      destruct (priority =? LOG_ERR); [reflexivity|].
      destruct (priority =? LOG_DEBUG); reflexivity. }
    rewrite Hl. reflexivity.
Qed.

Lemma file_line_single_line_witness :
  exists body,
    file_line "2024-05-01 10:00:00" "root" "/tmp: creation of file foo.txt" LOG_INFO
    = (body ++ String newline "")%string
    /\ no_newline body = true.
Proof.
  apply (file_line_single_line "2024-05-01 10:00:00" "root"
           "/tmp: creation of file foo.txt" LOG_INFO); reflexivity.
Defined.

(** X7.  [event_type] gives the text of a kind exactly when that kind is the
    first of the precedence order whose bit is set, or when no bit of the
    five is set and the kind is "modified": a mask without any of the five
    bits is reported as a modification. *)
Theorem event_type_characterised :
  forall (mask : Z) (k : kind),
    event_type mask = kind_text k
    <-> (first_kind mask = Some k \/ (first_kind mask = None /\ k = Modified)).
Proof.
  intros mask k. unfold first_kind, precedence, event_type, has_kind. simpl.
  destruct (Z.land mask IN_CREATE =? 0); destruct (Z.land mask IN_DELETE =? 0);
    destruct (Z.land mask IN_MODIFY =? 0); destruct (Z.land mask IN_MOVED_FROM =? 0);
    destruct (Z.land mask IN_MOVED_TO =? 0); destruct k; simpl;
    split; intros H;
    try discriminate;
    try (left; reflexivity);
    try (right; split; reflexivity);
    try reflexivity;
    try (destruct H as [H|[H H']]; discriminate).
Qed.

(** ** The configuration file, line by line *)

Lemma no_newline_cons (c : ascii) (s : string) :
  no_newline (String c s) = true -> Ascii.eqb c newline = false /\ no_newline s = true.
Proof.
  unfold no_newline. simpl. rewrite andb_true_iff, negb_true_iff. tauto.
Qed.

Lemma fgets_some (n : nat) (l : string) (c : ascii) (rest : string) :
  fgets (S n) (l ++ String c rest) = Some (fgets_chars n (l ++ String c rest)).
Proof.
  unfold fgets. rewrite Nat.sub_1_r. destruct l; reflexivity.
Qed.

(** A line that fits the array is read whole, with its newline. *)
Lemma fgets_chars_line (l rest : string) :
  no_newline l = true ->
  forall n : nat,
    (String.length l < n)%nat ->
    fgets_chars n (l ++ String newline rest) = ((l ++ String newline "")%string, rest).
Proof.
  induction l as [|c l IH]; intros Hl n Hn.
  - destruct n as [|n]; [lia|]. reflexivity.
  - destruct n as [|n]; [simpl in Hn; lia|].
    apply no_newline_cons in Hl. destruct Hl as [Hc Hl].
    cbn [append fgets_chars]. rewrite Hc. rewrite (IH Hl n) by (simpl in Hn; lia).
    reflexivity.
Qed.

(** A line longer than the array is cut after [n] characters. *)
Lemma fgets_chars_cut (l rest : string) :
  no_newline l = true ->
  fgets_chars (String.length l) (l ++ rest) = (l, rest).
Proof.
  induction l as [|c l IH]; intros Hl.
  - reflexivity.
  - apply no_newline_cons in Hl. destruct Hl as [Hc Hl].
    cbn [String.length append fgets_chars]. rewrite Hc, (IH Hl). reflexivity.
Qed.

(** A last line without newline is read up to the end of the file. *)
Lemma fgets_chars_eof (l : string) :
  no_newline l = true ->
  forall n : nat, (String.length l <= n)%nat -> fgets_chars n l = (l, "").
Proof.
  induction l as [|c l IH]; intros Hl n Hn.
  - destruct n; reflexivity.
  - destruct n as [|n]; [simpl in Hn; lia|].
    apply no_newline_cons in Hl. destruct Hl as [Hc Hl].
    cbn [fgets_chars]. rewrite Hc, (IH Hl n) by (simpl in Hn; lia). reflexivity.
Qed.

Lemma config_loop_unfold (fuel : nat) (stream : string) (g : globals) :
  config_loop (S fuel) stream g
  = match fgets MAX_CONFIG_LINE stream with
    | None => g
    | Some (chars, rest) => config_loop fuel rest (config_line chars g)
    end.
Proof. reflexivity. Qed.

Lemma config_loop_step (fuel : nat) (stream chars rest : string) (g : globals) :
  fgets MAX_CONFIG_LINE stream = Some (chars, rest) ->
  (String.length stream < fuel)%nat ->
  config_loop fuel stream g = config_loop (S (String.length rest)) rest (config_line chars g).
Proof.
  intros E Hfuel. destruct fuel as [|fuel]; [lia|].
  rewrite (config_loop_unfold fuel stream g), E.
  apply fgets_consumes in E. apply config_loop_fuel; lia.
Qed.

Lemma config_loop_end (fuel : nat) (g : globals) : config_loop fuel "" g = g.
Proof. destruct fuel; reflexivity. Qed.

(** X8.  The file is taken line by line, in order: a first line of fewer
    than 511 characters is handled with its newline and the rest of the file
    is read from the settings it leaves, so a later line overrides an
    earlier one; a last line without newline is handled as it stands; an
    empty file changes nothing. *)
Theorem read_config_line_by_line :
  forall (g : globals),
    (forall (l rest : string),
        no_newline l = true ->
        (String.length l < 511)%nat ->
        read_config (Some (l ++ String newline rest)%string) g
        = read_config (Some rest) (config_line (l ++ String newline "")%string g))
    /\ (forall (l : string),
          no_newline l = true ->
          (0 < String.length l <= 511)%nat ->
          read_config (Some l) g = config_line l g)
    /\ read_config (Some "") g = g.
Proof.
  intros g. split; [|split].
  - intros l rest Hl Hlen. unfold read_config.
    apply config_loop_step; [|lia].
    change MAX_CONFIG_LINE with (S 511).
    rewrite fgets_some, (fgets_chars_line l rest Hl 511 Hlen). reflexivity.
  - intros l Hl Hlen. unfold read_config.
    destruct l as [|c l]; [simpl in Hlen; lia|].
    rewrite (config_loop_step _ (String c l) (String c l) "" g); [apply config_loop_end| |lia].
    change MAX_CONFIG_LINE with (S 511).
    change (String c l) with ("" ++ String c l)%string at 1.
    rewrite fgets_some. cbn [append]. rewrite (fgets_chars_eof _ Hl 511) by lia.
    reflexivity.
  - reflexivity.
Qed.

Lemma read_config_line_by_line_witness :
  read_config (Some ("LOG_INTERVAL=10" ++ String newline "LOG_INTERVAL=20")%string)
    initial_globals
  = set_log_interval initial_globals 20.
Proof.
  destruct (read_config_line_by_line initial_globals) as (H1 & _ & _).
  rewrite (H1 "LOG_INTERVAL=10" "LOG_INTERVAL=20" eq_refl ltac:(simpl; lia)).
  destruct (read_config_line_by_line
              (config_line ("LOG_INTERVAL=10" ++ String newline "")%string initial_globals))
    as (_ & H2 & _).
  rewrite (H2 "LOG_INTERVAL=20" eq_refl ltac:(simpl; lia)).
  reflexivity.
Defined.

Lemma fgets_cut (n : nat) (head tail : string) :
  no_newline head = true ->
  String.length head = S n ->
  fgets (S (S n)) (head ++ tail) = Some (head, tail).
Proof.
  intros Hh Hlen. unfold fgets. rewrite Nat.sub_1_r. cbn [pred].
  rewrite <- Hlen, (fgets_chars_cut head tail Hh).
  destruct head; [discriminate | reflexivity].
Qed.

(** X9.  [fgets] cuts a line after 511 characters, and what follows the cut
    is handled as a line of its own: the tail of an overlong line, of a
    comment too, is read as a setting. *)
Theorem read_config_cuts_long_lines :
  forall (head tail : string) (g : globals),
    no_newline head = true ->
    String.length head = 511%nat ->
    read_config (Some (head ++ tail)%string) g
    = read_config (Some tail) (config_line head g).
Proof.
  intros head tail g Hh Hlen. unfold read_config.
  apply config_loop_step; [|rewrite length_append; lia].
  exact (fgets_cut 510 head tail Hh Hlen).
Qed.

Lemma read_config_cuts_long_lines_witness :
  read_config (Some (long_comment ++ "LOG_INTERVAL=7")%string) initial_globals
  = set_log_interval initial_globals 7.
Proof.
  rewrite (read_config_cuts_long_lines long_comment "LOG_INTERVAL=7" initial_globals
             eq_refl eq_refl).
  vm_compute. reflexivity.
Defined.

Lemma config_line_frame (chars : string) (g : globals) :
  let g' := config_line chars g in
  log_file g' = log_file g /\ inotify_fd g' = inotify_fd g
  /\ watch_dirs g' = watch_dirs g /\ periodic_last_check g' = periodic_last_check g
  /\ syslog_out g' = syslog_out g.
Proof.
  unfold config_line.
  destruct (chomp (c_str chars)) as [|c l]; [repeat split|].
  destruct (Ascii.eqb c "#"); [repeat split|].
  destruct (prefix "LOG_INTERVAL=" (String c l)).
  - destruct ((0 <? atoi (advance 13 (String c l)))
              && (atoi (advance 13 (String c l)) <=? 3600)); repeat split.
  - destruct (prefix "USE_SYSLOG=" (String c l)); repeat split.
Qed.

Lemma config_loop_frame (fuel : nat) :
  forall (stream : string) (g : globals),
    let g' := config_loop fuel stream g in
    log_file g' = log_file g /\ inotify_fd g' = inotify_fd g
    /\ watch_dirs g' = watch_dirs g /\ periodic_last_check g' = periodic_last_check g
    /\ syslog_out g' = syslog_out g.
Proof.
  induction fuel as [|fuel IH]; intros stream g; cbv zeta.
  - repeat split.
  - rewrite config_loop_unfold.
    destruct (fgets MAX_CONFIG_LINE stream) as [[chars rest]|]; [|repeat split].
    destruct (IH rest (config_line chars g)) as (H1 & H2 & H3 & H4 & H5).
    destruct (config_line_frame chars g) as (K1 & K2 & K3 & K4 & K5).
    rewrite H1, H2, H3, H4, H5. repeat split; assumption.
Qed.

(** X10.  Whatever the file holds, [read_config] changes no more than the
    interval and the forwarding flag: the log file, the channel descriptor,
    the watch table, the time of the last fallback scan and the system log
    are as before. *)
Theorem read_config_frame :
  forall (config : option string) (g : globals),
    let g' := read_config config g in
    log_file g' = log_file g
    /\ inotify_fd g' = inotify_fd g
    /\ watch_dirs g' = watch_dirs g
    /\ periodic_last_check g' = periodic_last_check g
    /\ syslog_out g' = syslog_out g.
Proof.
  intros [content|] g; cbv zeta.
  - apply config_loop_frame.
  - repeat split.
Qed.

(** X11.  A line that is empty, that starts with [#], or that starts with
    neither key changes nothing; the keys are matched from the first
    character of the line, in upper case. *)
Theorem config_line_ignored :
  forall (chars : string) (g : globals),
    let line := chomp (c_str chars) in
    line = ""
    \/ prefix "#" line = true
    \/ (prefix "LOG_INTERVAL=" line = false /\ prefix "USE_SYSLOG=" line = false) ->
    config_line chars g = g.
Proof.
  intros chars g line H. unfold config_line. fold line.
  destruct line as [|c l]; [reflexivity|].
  destruct H as [H|[H|[H1 H2]]].
  - discriminate.
  - apply prefix_head in H. subst c. reflexivity.
  - rewrite H1, H2. destruct (Ascii.eqb c "#"); reflexivity.
Qed.

Lemma config_line_ignored_witness :
  config_line ("# LOG_INTERVAL=9" ++ String newline "")%string initial_globals = initial_globals
  /\ config_line (" LOG_INTERVAL=9" ++ String newline "")%string initial_globals
     = initial_globals
  /\ config_line (String newline "") initial_globals = initial_globals.
Proof.
  split; [|split].
  - apply (config_line_ignored ("# LOG_INTERVAL=9" ++ String newline "")%string).
    right. left. reflexivity.
  - apply (config_line_ignored (" LOG_INTERVAL=9" ++ String newline "")%string).
    right. right. split; reflexivity.
  - apply (config_line_ignored (String newline "")). left. reflexivity.
Defined.

(** X12.  A line [USE_SYSLOG=...] sets the forwarding flag to whether [atoi]
    reads a number other than 0 after the key, and leaves the interval: text
    that is no number disables forwarding. *)
Theorem config_line_use_syslog :
  forall (chars : string) (g : globals),
    let line := chomp (c_str chars) in
    prefix "USE_SYSLOG=" line = true ->
    config_line chars g = set_use_syslog g (negb (atoi (advance 11 line) =? 0)).
Proof.
  intros chars g line H. unfold config_line. fold line.
  destruct line as [|c l]; [discriminate|].
  assert (c = "U"%char) by (apply (prefix_head _ _ _ _ H)). subst c.
  change (Ascii.eqb "U" "#") with false. cbv iota.
  change (prefix "LOG_INTERVAL=" (String "U" l)) with false. cbv iota.
  rewrite H. reflexivity.
Qed.

Lemma config_line_use_syslog_witness :
  use_syslog (config_line ("USE_SYSLOG=yes" ++ String newline "")%string initial_globals)
  = false
  /\ use_syslog (config_line "USE_SYSLOG=2" (set_use_syslog initial_globals false)) = true.
Proof.
  split.
  - rewrite (config_line_use_syslog ("USE_SYSLOG=yes" ++ String newline "")%string
               initial_globals eq_refl).
    reflexivity.
  - rewrite (config_line_use_syslog "USE_SYSLOG=2" (set_use_syslog initial_globals false)
               eq_refl).
    reflexivity.
Defined.

(** ** Decimal text and [atoi] *)

Ltac digit_cases d :=
  let H := fresh in
  assert (H : d = 0 \/ d = 1 \/ d = 2 \/ d = 3 \/ d = 4 \/ d = 5 \/ d = 6 \/ d = 7
              \/ d = 8 \/ d = 9) by lia;
  repeat (destruct H as [H|H]; [subst d|]); [..|subst d].

Lemma digit_of_char (d : Z) : 0 <= d <= 9 -> digit_of (digit_char d) = Some d.
Proof. intros Hd. digit_cases d; reflexivity. Qed.

Lemma print_digits_value (fuel : nat) :
  forall (n : Z) (tail : string),
    0 <= n < 10 ^ Z.of_nat fuel ->
    exists k : nat,
      forall acc : Z,
        digits_value acc (print_digits fuel n tail)
        = digits_value (acc * 10 ^ Z.of_nat k + n) tail.
Proof.
  induction fuel as [|fuel IH]; intros n tail Hn.
  - exists 0%nat. intros acc. simpl in *. f_equal. lia.
  - pose proof (Z.mod_pos_bound n 10 ltac:(lia)) as Hm.
    cbn [print_digits]. destruct (Z.ltb_spec n 10) as [Hlt|Hge].
    + exists 1%nat. intros acc. cbn [digits_value].
      rewrite digit_of_char by lia. rewrite Z.mod_small by lia.
      f_equal. change (10 ^ Z.of_nat 1) with 10. lia.
    + rewrite Nat2Z.inj_succ, Z.pow_succ_r in Hn by lia.
      destruct (IH (n / 10) (String (digit_char (n mod 10)) tail)) as [k Hk].
      { split; [apply Z.div_pos; lia | apply Z.div_lt_upper_bound; lia]. }
      exists (S k). intros acc. rewrite Hk. cbn [digits_value].
      rewrite digit_of_char by lia. f_equal.
      rewrite Nat2Z.inj_succ, Z.pow_succ_r by lia.
      pose proof (Z.div_mod n 10 ltac:(lia)) as Hdm. lia.
Qed.

Lemma print_digits_head (fuel : nat) :
  forall (n : Z) (tail : string),
    exists d s, 0 <= d <= 9 /\ print_digits (S fuel) n tail = String (digit_char d) s.
Proof.
  induction fuel as [|fuel IH]; intros n tail;
    pose proof (Z.mod_pos_bound n 10 ltac:(lia)) as Hm.
  - exists (n mod 10), tail. split; [lia|]. cbn [print_digits].
    destruct (n <? 10); reflexivity.
  - cbn [print_digits]. fold (print_digits (S fuel)).
    destruct (n <? 10).
    + exists (n mod 10), tail. split; [lia | reflexivity].
    + apply IH.
Qed.

Lemma all_digits_cons (c : ascii) (s : string) :
  all_digits (String c s) = true <-> ((exists d, digit_of c = Some d) /\ all_digits s = true).
Proof.
  unfold all_digits. simpl. rewrite andb_true_iff.
  destruct (digit_of c) as [d|]; split.
  - intros [_ H]. split; [exists d; reflexivity | exact H].
  - intros [_ H]. split; [reflexivity | exact H].
  - intros [H _]. discriminate.
  - intros [[d H] _]. discriminate.
Qed.

Lemma print_digits_all_digits (fuel : nat) :
  forall (n : Z) (tail : string),
    all_digits tail = true -> all_digits (print_digits fuel n tail) = true.
Proof.
  induction fuel as [|fuel IH]; intros n tail Ht; [exact Ht|].
  pose proof (Z.mod_pos_bound n 10 ltac:(lia)) as Hm.
  assert (Hc : all_digits (String (digit_char (n mod 10)) tail) = true).
  { apply all_digits_cons. split; [|exact Ht].
    exists (n mod 10). apply digit_of_char. lia. }
  cbn [print_digits]. destruct (n <? 10); [exact Hc | apply IH; exact Hc].
Qed.

Lemma print_digits_length (fuel : nat) :
  forall (n : Z) (tail : string),
    (String.length (print_digits fuel n tail) <= fuel + String.length tail)%nat.
Proof.
  induction fuel as [|fuel IH]; intros n tail; [simpl; lia|].
  cbn [print_digits]. destruct (n <? 10); [simpl; lia|].
  specialize (IH (n / 10) (String (digit_char (n mod 10)) tail)). simpl in IH. lia.
Qed.

Lemma all_digits_plain (s : string) :
  all_digits s = true -> no_NUL s = true /\ no_newline s = true.
Proof.
  induction s as [|c s IH]; intros H; [split; reflexivity|].
  apply all_digits_cons in H. destruct H as [[d Hd] Hs].
  destruct (IH Hs) as [H1 H2]. unfold no_NUL, no_newline in *. simpl.
  rewrite H1, H2.
  destruct (Ascii.eqb_spec c NUL) as [E|_]; [subst c; discriminate|].
  destruct (Ascii.eqb_spec c newline) as [E|_]; [subst c; discriminate|].
  split; reflexivity.
Qed.

Lemma strtol_digits (d : Z) (s : string) :
  0 <= d <= 9 ->
  strtol (String (digit_char d) s)
  = Z.max LONG_MIN (Z.min LONG_MAX (digits_value 0 (String (digit_char d) s))).
Proof.
  intros Hd. unfold strtol. digit_cases d; reflexivity.
Qed.

Lemma atoi_printf_d (v : Z) :
  -2147483648 <= v < 2147483648 -> atoi (printf_d v) = v.
Proof.
  intros Hv. unfold atoi, printf_d.
  destruct (Z.ltb_spec v 0) as [Hneg|Hpos].
  - destruct (print_digits_value 10 (- v) "" ltac:(simpl; lia)) as [k Hk].
    unfold strtol. cbn [skip_space]. change (isspace "-") with false. cbv iota.
    rewrite (Hk 0). cbn [digits_value]. unfold LONG_MIN, LONG_MAX.
    rewrite Z.mul_0_l, Z.add_0_l, Z.opp_involutive.
    rewrite Z.min_r, Z.max_r by lia. apply to_int_id. lia.
  - destruct (print_digits_value 10 v "" ltac:(simpl; lia)) as [k Hk].
    destruct (print_digits_head 9 v "") as (d & s & Hd & E).
    rewrite E, (strtol_digits d s Hd), <- E, (Hk 0). cbn [digits_value].
    unfold LONG_MIN, LONG_MAX. rewrite Z.mul_0_l, Z.add_0_l.
    rewrite Z.min_r, Z.max_r by lia. apply to_int_id. lia.
Qed.

Lemma c_str_plain (s : string) : no_NUL s = true -> c_str s = s.
Proof.
  induction s as [|c s IH]; intros H; [reflexivity|].
  apply no_NUL_cons in H. destruct H as [Hc Hs].
  simpl. rewrite Hc, (IH Hs). reflexivity.
Qed.

Lemma chomp_newline (s : string) : chomp (s ++ String newline "") = s.
Proof.
  induction s as [|c s IH]; [reflexivity|].
  cbn [append chomp]. rewrite IH. destruct s; reflexivity.
Qed.

Lemma no_NUL_app (s t : string) : no_NUL (s ++ t) = no_NUL s && no_NUL t.
Proof.
  unfold no_NUL. induction s as [|c s IH]; simpl; [reflexivity|].
  rewrite IH, andb_assoc. reflexivity.
Qed.

Lemma read_config_one_line (l : string) (g : globals) :
  no_newline l = true ->
  (String.length l < 511)%nat ->
  read_config (Some (l ++ String newline "")%string) g
  = config_line (l ++ String newline "")%string g.
Proof.
  intros Hl Hlen. unfold read_config.
  rewrite (config_loop_step _ _ (l ++ String newline "")%string "" g);
    [apply config_loop_end| |lia].
  change MAX_CONFIG_LINE with (S 511).
  rewrite fgets_some, (fgets_chars_line l "" Hl 511 Hlen). reflexivity.
Qed.

(** The line [LOG_INTERVAL=text], for a text without NUL. *)
Lemma config_line_interval_text (text : string) (g : globals) :
  no_NUL text = true ->
  config_line ("LOG_INTERVAL=" ++ text ++ String newline "")%string g
  = (if (0 <? atoi text) && (atoi text <=? 3600) then set_log_interval g (atoi text) else g).
Proof.
  intros Ht. unfold config_line.
  rewrite c_str_plain.
  - rewrite <- string_app_assoc, chomp_newline.
    cbn [append]. change (Ascii.eqb "L" "#") with false. cbv iota.
    assert (Ep : prefix "LOG_INTERVAL=" (String "L" (String "O" (String "G" (String "_"
                   (String "I" (String "N" (String "T" (String "E" (String "R" (String "V"
                   (String "A" (String "L" (String "=" text))))))))))))) = true)
      by (simpl; destruct text; reflexivity).
    rewrite Ep.
    assert (Ea : advance 13 (String "L" (String "O" (String "G" (String "_"
                   (String "I" (String "N" (String "T" (String "E" (String "R" (String "V"
                   (String "A" (String "L" (String "=" text))))))))))))) = text).
    { unfold advance. cbn [String.length Nat.sub substring]. apply substring_whole. lia. }
    rewrite Ea. reflexivity.
  - rewrite !no_NUL_app, Ht. reflexivity.
Qed.

(** X13.  [atoi] reads back what [%d] prints, for every [int]; so a file
    with the one line [LOG_INTERVAL=v], [v] written in decimal, sets the
    interval to [v] when [v] is in (0, 3600] and changes nothing when it is
    not. *)
Theorem decimal_interval :
  forall (v : Z) (g : globals),
    -2147483648 <= v < 2147483648 ->
    atoi (printf_d v) = v
    /\ read_config (Some ("LOG_INTERVAL=" ++ printf_d v ++ String newline "")%string) g
       = (if (0 <? v) && (v <=? 3600) then set_log_interval g v else g).
Proof.
  intros v g Hv. pose proof (atoi_printf_d v Hv) as Ea. split; [exact Ea|].
  assert (Hd : no_NUL (printf_d v) = true /\ no_newline (printf_d v) = true
               /\ (String.length (printf_d v) <= 11)%nat).
  { unfold printf_d. destruct (v <? 0).
    - destruct (all_digits_plain (print_digits 10 (- v) "")
                  (print_digits_all_digits 10 (- v) "" eq_refl)) as [H1 H2].
      pose proof (print_digits_length 10 (- v) "") as H3.
      change (String.length "") with 0%nat in H3.
      split; [exact H1|]. split; [exact H2|].
      change (S (String.length (print_digits 10 (- v) "")) <= 11)%nat. lia.
    - destruct (all_digits_plain (print_digits 10 v "")
                  (print_digits_all_digits 10 v "" eq_refl)) as [H1 H2].
      pose proof (print_digits_length 10 v "") as H3.
      change (String.length "") with 0%nat in H3.
      split; [exact H1|]. split; [exact H2 | lia]. }
  destruct Hd as (H1 & H2 & H3).
  rewrite string_app_assoc_rev.
  rewrite read_config_one_line.
  - rewrite string_app_assoc, (config_line_interval_text (printf_d v) g H1), Ea.
    reflexivity.
  - rewrite no_newline_app, H2. reflexivity.
  - rewrite length_append. simpl String.length. lia.
Qed.

Lemma decimal_interval_witness :
  atoi (printf_d 300) = 300
  /\ read_config (Some ("LOG_INTERVAL=" ++ printf_d 300 ++ String newline "")%string)
       initial_globals
     = set_log_interval initial_globals 300.
Proof.
  apply (decimal_interval 300 initial_globals). lia.
Defined.

(** ** The decoder on arbitrary buffers *)

Lemma log_event_calls (username : string) (w : watch_dir_t) (buffer : list ascii) (i : Z) :
  fst (log_event username w buffer i) = []
  \/ exists msg, fst (log_event username w buffer i) = [mkCall username msg LOG_INFO].
Proof.
  unfold log_event, bind, ret. cbn [fst snd].
  repeat match goal with
         | |- context [if ?b then _ else _] => destruct b; cbn [fst snd]
         end;
    first [left; reflexivity | right; eexists; reflexivity].
Qed.

Lemma scan_watch_dirs_calls (username : string) (ws : list watch_dir_t)
    (buffer : list ascii) (i : Z) :
  fst (scan_watch_dirs username ws buffer i) = []
  \/ exists msg, fst (scan_watch_dirs username ws buffer i) = [mkCall username msg LOG_INFO].
Proof.
  induction ws as [|w ws IH]; cbn [scan_watch_dirs].
  - left. reflexivity.
  - unfold bind. cbn [fst].
    destruct (wd w =? fst (event_wd buffer i)); [apply log_event_calls | exact IH].
Qed.

(** X14.  Whatever the buffer holds, when the loop ends its iterations
    follow one another from offset 0, each starting below the declared
    length, and each makes at most one call, at info priority and for the
    given user: no event is reported twice or at another priority. *)
Theorem decode_loop_shape :
  forall (fuel : nat) (username : string) (ws : list watch_dir_t) (buffer : list ascii)
         (length i : Z) (trace : list iteration),
    decode_loop fuel username ws buffer length i = Some trace ->
    chained length i trace /\ Forall (at_most_one_info username) trace.
Proof.
  induction fuel as [|fuel IH]; intros username ws buffer length i trace H; [discriminate|].
  cbn [decode_loop] in H. destruct (Z.ltb_spec i length) as [Hlt|Hge].
  - destruct (decode_loop fuel username ws buffer length
                (to_int (i + (sizeof_inotify_event + fst (event_len buffer i)))))
      as [rest|] eqn:E; [|discriminate].
    inversion H; subst trace. destruct (IH _ _ _ _ _ _ E) as [Hc Hf].
    split.
    + cbn [chained it_offset it_next]. auto.
    + constructor; [|exact Hf]. unfold at_most_one_info. cbn [it_logs].
      apply scan_watch_dirs_calls.
  - inversion H; subst trace. split; [exact Hge | constructor].
Qed.

Lemma decode_loop_shape_witness :
  chained 20 0
    [ {| it_offset := 0; it_next := 32;
         it_reads := [0; 1; 2; 3; 0; 1; 2; 3; 0; 1; 2; 3; 12; 13; 14; 15; 16; 4; 5; 6; 7;
                      12; 13; 14; 15; 16; 17; 18; 19; 20; 21; 22; 23; 12; 13; 14; 15];
         it_logs := [mkCall "root" "/tmp: creation of file foo.txt" LOG_INFO] |} ]
  /\ Forall (at_most_one_info "root")
       [ {| it_offset := 0; it_next := 32;
            it_reads := [0; 1; 2; 3; 0; 1; 2; 3; 0; 1; 2; 3; 12; 13; 14; 15; 16; 4; 5; 6; 7;
                         12; 13; 14; 15; 16; 17; 18; 19; 20; 21; 22; 23; 12; 13; 14; 15];
            it_logs := [mkCall "root" "/tmp: creation of file foo.txt" LOG_INFO] |} ].
Proof.
  apply (decode_loop_shape 2 "root" (watch_dirs example_globals)
           (encode (mkEvent 7 IN_CREATE 0 "foo.txt" 9)) 20 0).
  vm_compute. reflexivity.
Defined.

(** X15.  The loop relies on the [len] field to move on: at a header whose
    [len] is 2^32 - 16 the cursor comes back to the same offset, and the
    loop does not end, whatever the fuel. *)
Theorem decode_loop_stuck :
  forall (fuel : nat) (username : string) (ws : list watch_dir_t) (buffer : list ascii)
         (length i : Z),
    -2147483648 <= i < 2147483648 ->
    i < length ->
    fst (event_len buffer i) = 4294967280 ->
    decode_loop fuel username ws buffer length i = None.
Proof.
  induction fuel as [|fuel IH]; intros username ws buffer length i Hi Hlt Hlen;
    [reflexivity|].
  cbn [decode_loop]. destruct (Z.ltb_spec i length); [|lia].
  rewrite Hlen.
  replace (to_int (i + (sizeof_inotify_event + 4294967280))) with i.
  - rewrite (IH username ws buffer length i Hi Hlt Hlen). reflexivity.
  - unfold to_int, sizeof_inotify_event. Z.div_mod_to_equations. lia.
Qed.

Lemma decode_loop_stuck_witness :
  decode_loop 100 "root" (watch_dirs example_globals)
    (le32 7 ++ le32 IN_CREATE ++ le32 0 ++ le32 4294967280) 16 0 = None.
Proof.
  apply decode_loop_stuck; [lia | lia | reflexivity].
Defined.

(** The calls of a pass over well-formed records. *)
Lemma check_directory_changes_logs (username : string) (g : globals)
    (rs : list inotify_event) (stale : list ascii) (fuel : nat) :
  0 <= inotify_fd g ->
  paths_fit (watch_dirs g) ->
  forallb well_formed rs = true ->
  total_size rs <= 4096 ->
  (List.length rs < fuel)%nat ->
  option_map logs_of
    (check_directory_changes fuel username g (Some (encode_all rs ++ stale, total_size rs)))
  = Some (flat_map (report username (watch_dirs g)) rs).
Proof.
  intros Hfd Hfit Hwf Hsize Hfuel. unfold check_directory_changes.
  destruct (Z.ltb_spec (inotify_fd g) 0); [lia|].
  destruct (Z.ltb_spec 0 (total_size rs)) as [Hp|Hz].
  - destruct (decode_loop_records username (watch_dirs g) (encode_all rs ++ stale)
                (total_size rs) Hfit ltac:(lia) rs stale 0 fuel ltac:(lia)
                eq_refl eq_refl Hwf Hfuel) as (trace & Hdec & Hall).
    rewrite Hdec. cbn [option_map]. f_equal. exact (decodes_all_logs _ _ _ _ _ Hall).
  - destruct rs as [|r rs]; [reflexivity|].
    pose proof (record_size_pos r). pose proof (total_size_nonneg rs).
    cbn [total_size fold_right] in Hz. fold (total_size rs) in Hz. lia.
Qed.

(** X16.  What is reported depends on the records alone: the bytes left in
    the array behind the declared length play no part, and one read that
    returns two batches of records yields the calls of two reads that return
    one batch each, in order. *)
Theorem decoding_composes :
  forall (username : string) (g : globals) (rs1 rs2 : list inotify_event)
         (stale stale1 stale2 : list ascii) (fuel : nat),
    0 <= inotify_fd g ->
    paths_fit (watch_dirs g) ->
    forallb well_formed (rs1 ++ rs2) = true ->
    total_size (rs1 ++ rs2) <= 4096 ->
    (List.length (rs1 ++ rs2) < fuel)%nat ->
    exists calls1 calls2,
      option_map logs_of
        (check_directory_changes fuel username g
           (Some (encode_all rs1 ++ stale1, total_size rs1))) = Some calls1
      /\ option_map logs_of
           (check_directory_changes fuel username g
              (Some (encode_all rs2 ++ stale2, total_size rs2))) = Some calls2
      /\ option_map logs_of
           (check_directory_changes fuel username g
              (Some (encode_all (rs1 ++ rs2) ++ stale, total_size (rs1 ++ rs2))))
         = Some (calls1 ++ calls2).
Proof.
  intros username g rs1 rs2 stale stale1 stale2 fuel Hfd Hfit Hwf Hsize Hfuel.
  rewrite forallb_app in Hwf. apply andb_true_iff in Hwf. destruct Hwf as [Hwf1 Hwf2].
  rewrite total_size_app in Hsize. rewrite length_app in Hfuel.
  pose proof (total_size_nonneg rs1). pose proof (total_size_nonneg rs2).
  exists (flat_map (report username (watch_dirs g)) rs1),
         (flat_map (report username (watch_dirs g)) rs2).
  split; [|split].
  - apply check_directory_changes_logs; try assumption; lia.
  - apply check_directory_changes_logs; try assumption; lia.
  - rewrite <- flat_map_app. apply check_directory_changes_logs; try assumption.
    + rewrite forallb_app, Hwf1, Hwf2. reflexivity.
    + rewrite total_size_app. lia.
    + rewrite length_app. lia.
Qed.

Lemma decoding_composes_witness :
  exists calls1 calls2,
    option_map logs_of
      (check_directory_changes 4 "root" example_globals
         (Some (encode_all [mkEvent 7 IN_CREATE 0 "foo.txt" 9] ++ repeat "x"%char 8,
                total_size [mkEvent 7 IN_CREATE 0 "foo.txt" 9]))) = Some calls1
    /\ option_map logs_of
         (check_directory_changes 4 "root" example_globals
            (Some (encode_all [mkEvent 1 IN_MODIFY 0 "" 0] ++ [],
                   total_size [mkEvent 1 IN_MODIFY 0 "" 0]))) = Some calls2
    /\ option_map logs_of
         (check_directory_changes 4 "root" example_globals
            (Some (encode_all ([mkEvent 7 IN_CREATE 0 "foo.txt" 9]
                               ++ [mkEvent 1 IN_MODIFY 0 "" 0]) ++ repeat NUL 3,
                   total_size ([mkEvent 7 IN_CREATE 0 "foo.txt" 9]
                               ++ [mkEvent 1 IN_MODIFY 0 "" 0]))))
       = Some (calls1 ++ calls2).
Proof.
  apply (decoding_composes "root" example_globals [mkEvent 7 IN_CREATE 0 "foo.txt" 9]
           [mkEvent 1 IN_MODIFY 0 "" 0] (repeat NUL 3) (repeat "x"%char 8) [] 4).
  - simpl. lia.
  - repeat constructor; simpl; unfold MAX_PATH_LEN; lia.
  - reflexivity.
  - vm_compute. discriminate.
  - simpl. lia.
Defined.

(** ** Installing the watches *)

Lemma add_watches_map (inotify_add_watch : string -> Z) (now : Z) (ws : list watch_dir_t) :
  add_watches inotify_add_watch now ws = map (watched inotify_add_watch now) ws.
Proof.
  induction ws as [|w ws IH]; simpl; [reflexivity|]. rewrite IH. reflexivity.
Qed.

Lemma watched_path (inotify_add_watch : string -> Z) (now : Z) (w : watch_dir_t) :
  path (watched inotify_add_watch now w) = path w.
Proof.
  unfold watched. destruct (0 <=? inotify_add_watch (path w)); reflexivity.
Qed.

(** X17.  When the notification channel cannot be opened,
    [init_directory_monitoring] returns -1 and leaves the watch table as it
    was, and from then on [check_directory_changes] does nothing, whatever
    is pending: only the fallback scan is left. *)
Theorem init_failure_disables_decoder :
  forall (inotify_init : Z) (inotify_add_watch : string -> Z) (now : Z) (g : globals),
    inotify_init < 0 ->
    let r := init_directory_monitoring inotify_init inotify_add_watch now g in
    snd r = -1
    /\ watch_dirs (fst r) = watch_dirs g
    /\ forall (fuel : nat) (username : string) (pending : option (list ascii * Z)),
         check_directory_changes fuel username (fst r) pending = Some [].
Proof.
  intros inotify_init inotify_add_watch now g Hneg r. subst r.
  unfold init_directory_monitoring.
  destruct (Z.ltb_spec inotify_init 0); [|lia]. cbn [fst snd].
  split; [reflexivity|]. split; [reflexivity|].
  intros fuel username pending. unfold check_directory_changes. cbn [inotify_fd set_inotify_fd].
  destruct (Z.ltb_spec inotify_init 0); [reflexivity | lia].
Qed.

Lemma init_failure_disables_decoder_witness :
  let r := init_directory_monitoring (-1) add_watch_example 1000 initial_globals in
  snd r = -1
  /\ watch_dirs (fst r) = initial_watch_dirs
  /\ forall (fuel : nat) (username : string) (pending : option (list ascii * Z)),
       check_directory_changes fuel username (fst r) pending = Some [].
Proof.
  apply (init_failure_disables_decoder (-1) add_watch_example 1000 initial_globals). lia.
Defined.

(** X18.  When the channel opens, [init_directory_monitoring] returns 0,
    keeps the table's length and paths, gives every directory whose watch
    was installed its handle and the current time as baseline, and leaves
    an entry whose watch failed exactly as it was. *)
Theorem init_installs_watches :
  forall (inotify_init : Z) (inotify_add_watch : string -> Z) (now : Z) (g : globals),
    0 <= inotify_init ->
    let r := init_directory_monitoring inotify_init inotify_add_watch now g in
    snd r = 0
    /\ inotify_fd (fst r) = inotify_init
    /\ map path (watch_dirs (fst r)) = map path (watch_dirs g)
    /\ Forall2
         (fun w w' =>
            (0 <= inotify_add_watch (path w) ->
               w' = mkWatch (path w) (inotify_add_watch (path w)) now)
            /\ (inotify_add_watch (path w) < 0 -> w' = w))
         (watch_dirs g) (watch_dirs (fst r)).
Proof.
  intros inotify_init inotify_add_watch now g Hpos r. subst r.
  unfold init_directory_monitoring.
  destruct (Z.ltb_spec inotify_init 0); [lia|]. cbn [fst snd].
  split; [reflexivity|]. split; [reflexivity|].
  cbn [watch_dirs set_watch_dirs set_inotify_fd].
  generalize (watch_dirs g). intros ws. rewrite add_watches_map. split.
  - rewrite map_map. apply map_ext. intros w. apply watched_path.
  - induction ws as [|w ws IH]; cbn [map]; constructor; [|exact IH].
    unfold watched. destruct (Z.leb_spec 0 (inotify_add_watch (path w))); split; intros;
      try reflexivity; lia.
Qed.

Lemma init_installs_watches_witness :
  let r := init_directory_monitoring 3 add_watch_example 1000 initial_globals in
  snd r = 0
  /\ watch_dirs (fst r)
     = [mkWatch "/etc" (-1) 0; mkWatch "/var/log" 2 1000; mkWatch "/tmp" 7 1000].
Proof.
  pose proof (init_installs_watches 3 add_watch_example 1000 initial_globals
                ltac:(lia)) as (H & _).
  split; [exact H | reflexivity].
Defined.




(** ** The fallback scan over its runs *)

(** X20.  The first observation of a directory only records a baseline: an
    entry whose [last_check] is not positive (its watch was never installed)
    emits nothing on the pass that first reads its modification time,
    whatever that time is; when that time is positive, a later pass that
    reads a greater one reports the directory (other than the log
    directory) once. *)
Theorem first_observation_is_baseline :
  forall (username : string) (stat1 stat2 : string -> option Z) (w : watch_dir_t)
         (m1 m2 : Z),
    last_check w <= 0 ->
    stat1 (path w) = Some m1 ->
    periodic_target username stat1 w = (set_last_check w m1, [])
    /\ (stat2 (path w) = Some m2 ->
        0 < m1 < m2 ->
        path w <> "/var/log" ->
        (String.length (path w) < MAX_PATH_LEN)%nat ->
        periodic_target username stat2 (set_last_check w m1)
        = (set_last_check w m2, [change_record username w])).
Proof.
  intros username stat1 stat2 w m1 m2 Hlc H1. split.
  - unfold periodic_target. rewrite H1.
    destruct (Z.ltb_spec 0 (last_check w)); [lia|].
    destruct (String.eqb (path w) "/var/log"); [|reflexivity].
    match goal with
    | |- context [match ?x with Some _ => _ | None => _ end] => destruct x
    end; rewrite ?andb_false_r; reflexivity.
  - intros H2 Hm Hp Hfit.
    unfold periodic_target. cbn [path set_last_check last_check]. rewrite H2.
    destruct (String.eqb_spec (path w) "/var/log"); [contradiction|].
    destruct (Z.ltb_spec 0 m1); [|lia]. destruct (Z.ltb_spec m1 m2); [|lia].
    cbn [andb]. rewrite (change_message_fits w Hfit). reflexivity.
Qed.

Lemma first_observation_is_baseline_witness :
  periodic_target "root" (stat_example 200 200) (mkWatch "/tmp" (-1) 0)
  = (mkWatch "/tmp" (-1) 200, [])
  /\ periodic_target "root" (stat_example 300 300) (mkWatch "/tmp" (-1) 200)
     = (mkWatch "/tmp" (-1) 300, [change_record "root" (mkWatch "/tmp" (-1) 0)]).
Proof.
  destruct (first_observation_is_baseline "root" (stat_example 200 200)
              (stat_example 300 300) (mkWatch "/tmp" (-1) 0) 200 300
              ltac:(simpl; lia) eq_refl) as [H1 H2].
  split; [exact H1|].
  apply H2; [reflexivity | lia | discriminate | vm_compute; lia].
Defined.




Lemma periodic_loop_calls (username : string) (stat : string -> option Z)
    (ws : list watch_dir_t) :
  (List.length (snd (periodic_loop username stat ws)) <= List.length ws)%nat
  /\ forall c, In c (snd (periodic_loop username stat ws)) ->
       exists w m,
         In w ws /\ stat (path w) = Some m /\ 0 < last_check w < m
         /\ c = mkCall username
                  (snprintf 1024 ("Changes detected in directory: " ++ path w)%string)
                  LOG_INFO.
Proof.
  induction ws as [|w ws [IHl IHc]]; [split; [simpl; lia | intros c []]|].
  cbn [periodic_loop snd].
  assert (Hw : snd (periodic_target username stat w) = []
               \/ exists m, stat (path w) = Some m /\ 0 < last_check w < m
                            /\ snd (periodic_target username stat w)
                               = [mkCall username
                                    (snprintf 1024
                                       ("Changes detected in directory: " ++ path w)%string)
                                    LOG_INFO]).
  { unfold periodic_target. destruct (stat (path w)) as [m|]; [|left; reflexivity].
    match goal with |- context [if ?b then (_, []) else _] => destruct b end;
      [left; reflexivity|].
    destruct (Z.ltb_spec 0 (last_check w)); destruct (Z.ltb_spec (last_check w) m);
      cbn [andb snd]; try (left; reflexivity).
    right. exists m. split; [reflexivity|]. split; [lia | reflexivity]. }
  split.
  - rewrite length_app. destruct Hw as [E|(m & _ & _ & E)]; rewrite E; simpl; lia.
  - intros c Hc. apply in_app_or in Hc. destruct Hc as [Hc|Hc].
    + destruct Hw as [E|(m & Hs & Hm & E)]; rewrite E in Hc; [contradiction|].
      destruct Hc as [Hc|[]]. exists w, m. subst c.
      split; [left; reflexivity|]. auto.
    + destruct (IHc c Hc) as (w' & m & Hin & Hs & Hm & E).
      exists w', m. split; [right; exact Hin|]. auto.
Qed.

(** X22.  A call of the fallback scan emits at most one record per entry of
    the table, and every record it emits is an info record naming a
    directory of the table whose modification time was read and is greater
    than a positive stored time: a directory without a baseline, or one
    that cannot be read, is never reported. *)
Theorem periodic_scan_records :
  forall (username : string) (now : Z) (stat : string -> option Z) (g : globals),
    let calls := snd (check_directory_changes_periodic username now stat g) in
    (List.length calls <= List.length (watch_dirs g))%nat
    /\ forall c, In c calls ->
         exists w m,
           In w (watch_dirs g) /\ stat (path w) = Some m /\ 0 < last_check w < m
           /\ c = mkCall username
                    (snprintf 1024 ("Changes detected in directory: " ++ path w)%string)
                    LOG_INFO.
Proof.
  intros username now stat g calls. subst calls. unfold check_directory_changes_periodic.
  destruct (now - periodic_last_check g <? 30); cbn [snd].
  - split; [simpl; lia | intros c []].
  - apply periodic_loop_calls.
Qed.

Lemma periodic_scan_records_witness :
  exists w m,
    In w (watch_dirs (set_watch_dirs initial_globals [mkWatch "/tmp" 3 100]))
    /\ stat_example 200 200 (path w) = Some m
    /\ 0 < last_check w < m
    /\ mkCall "root" "Changes detected in directory: /tmp" LOG_INFO
       = mkCall "root"
           (snprintf 1024 ("Changes detected in directory: " ++ path w)%string) LOG_INFO.
Proof.
  apply (proj2 (periodic_scan_records "root" 1000 (stat_example 200 200)
                  (set_watch_dirs initial_globals [mkWatch "/tmp" 3 100]))).
  left. reflexivity.
Defined.

Lemma event_type_characterised_witness :
  event_type 16384 = kind_text Modified /\ first_kind (Z.lor IN_DELETE IN_MOVED_TO) = Some Deleted.
Proof.
  split.
  - apply (proj2 (event_type_characterised 16384 Modified)).
    right. split; reflexivity.
  - destruct (proj1 (event_type_characterised (Z.lor IN_DELETE IN_MOVED_TO) Deleted)
                eq_refl) as [H|[H _]]; [exact H | discriminate H].
Defined.

(** ** Counting connections *)

Lemma fgets_line_consumes (stream chars rest : string) :
  fgets MAX_LINE_LEN stream = Some (chars, rest) ->
  (String.length rest < String.length stream)%nat.
Proof.
  exact (fgets_shortens 254 stream chars rest).
Qed.

Lemma count_connections_unfold (fuel : nat) (stream : string) (cc ec : Z) :
  count_connections (S fuel) stream cc ec
  = match fgets MAX_LINE_LEN stream with
    | None => (cc, ec)
    | Some (chars, rest) =>
        count_connections fuel rest (cc + 1)
          (if strstr_found ": 01 " (c_str chars) then ec + 1 else ec)
    end.
Proof. reflexivity. Qed.

Lemma count_connections_fuel (fuel1 fuel2 : nat) (stream : string) (cc ec : Z) :
  (String.length stream < fuel1)%nat ->
  (String.length stream < fuel2)%nat ->
  count_connections fuel1 stream cc ec = count_connections fuel2 stream cc ec.
Proof.
  revert fuel2 stream cc ec; induction fuel1 as [|fuel1 IH];
    intros fuel2 stream cc ec H1 H2; [lia|].
  destruct fuel2 as [|fuel2]; [lia|].
  rewrite !count_connections_unfold.
  destruct (fgets MAX_LINE_LEN stream) as [[chars rest]|] eqn:E; [|reflexivity].
  apply fgets_line_consumes in E. apply IH; lia.
Qed.

Lemma count_connections_bounds (fuel : nat) :
  forall (stream : string) (cc ec : Z),
    let r := count_connections fuel stream cc ec in
    ec <= snd r /\ snd r - ec <= fst r - cc /\ fst r - cc <= Z.of_nat (String.length stream).
Proof.
  induction fuel as [|fuel IH]; intros stream cc ec; cbv zeta.
  - simpl. lia.
  - rewrite count_connections_unfold.
    destruct (fgets MAX_LINE_LEN stream) as [[chars rest]|] eqn:E; [|simpl; lia].
    apply fgets_line_consumes in E.
    specialize (IH rest (cc + 1)
                  (if strstr_found ": 01 " (c_str chars) then ec + 1 else ec)).
    cbv zeta in IH. destruct (strstr_found ": 01 " (c_str chars)); lia.
Qed.

Lemma printf_d_length (n : Z) : (String.length (printf_d n) <= 11)%nat.
Proof.
  unfold printf_d. destruct (n <? 0).
  - pose proof (print_digits_length 10 (- n) "") as H.
    change (String.length "") with 0%nat in H.
    change (S (String.length (print_digits 10 (- n) "")) <= 11)%nat. lia.
  - pose proof (print_digits_length 10 n "") as H.
    change (String.length "") with 0%nat in H. lia.
Qed.

(** X23.  [log_network_connections] makes exactly one call.  When the file
    can be read it is an info record with the two counters, untruncated; the
    established connections are never more than the total, and the total is
    at most the number of characters of the file, so the [int] counters
    cannot overflow on a file of less than 2 GiB.  When the file cannot be
    opened it is a warning. *)
Theorem network_connections_counters :
  forall (username strerror : string),
    (forall content : string,
        let total := fst (tcp_counts content) in
        let established := snd (tcp_counts content) in
        0 <= established <= total
        /\ total <= Z.of_nat (String.length content)
        /\ log_network_connections username strerror (Some content)
           = [mkCall username
                ("TCP network connections: total " ++ printf_d total
                   ++ ", established " ++ printf_d established)%string
                LOG_INFO])
    /\ exists msg,
         log_network_connections username strerror None = [mkCall username msg LOG_WARNING].
Proof.
  intros username strerror. split; [|eexists; reflexivity].
  intros content total established.
  assert (Hb : 0 <= established <= total /\ total <= Z.of_nat (String.length content)).
  { subst total established. unfold tcp_counts.
    destruct (fgets MAX_LINE_LEN content) as [[chars rest]|] eqn:E; [|simpl; lia].
    apply fgets_line_consumes in E.
    pose proof (count_connections_bounds (S (String.length rest)) rest 0 0) as H.
    cbv zeta in H. lia. }
  destruct Hb as [H1 H2]. split; [exact H1|]. split; [exact H2|].
  unfold log_network_connections. fold total. fold established.
  rewrite snprintf_fits; [reflexivity|].
  rewrite !length_append.
  pose proof (printf_d_length total). pose proof (printf_d_length established).
  simpl String.length. lia.
Qed.

Lemma prefix_before_newline (needle : string) :
  no_newline needle = true ->
  forall l : string, prefix needle (l ++ String newline "") = prefix needle l.
Proof.
  induction needle as [|a needle IH]; intros Hn l; [destruct l; reflexivity|].
  apply no_newline_cons in Hn. destruct Hn as [Ha Hn].
  destruct l as [|b l]; cbn [append prefix].
  - destruct (ascii_dec a newline) as [E|_]; [|reflexivity].
    subst a. rewrite Ascii.eqb_refl in Ha. discriminate.
  - destruct (ascii_dec a b); [apply IH; exact Hn | reflexivity].
Qed.

Lemma strstr_before_newline (needle : string) (c : ascii) (rest : string) :
  needle = String c rest ->
  no_newline needle = true ->
  forall l : string,
    strstr_found needle (l ++ String newline "") = strstr_found needle l.
Proof.
  intros En Hn l. induction l as [|b l IH].
  - pose proof (prefix_before_newline needle Hn "") as P. cbn [append] in P.
    cbn [append strstr_found]. rewrite P. subst needle. reflexivity.
  - pose proof (prefix_before_newline needle Hn (String b l)) as P. cbn [append] in P.
    cbn [append strstr_found]. rewrite P, IH. reflexivity.
Qed.

Lemma plain_line_spec (l : string) :
  plain_line l = true ->
  no_newline l = true /\ no_NUL l = true /\ (String.length l < 255)%nat.
Proof.
  unfold plain_line. rewrite !andb_true_iff, Nat.ltb_lt. tauto.
Qed.

Lemma count_plain_lines (ls : list string) :
  forallb plain_line ls = true ->
  forall (fuel : nat) (cc ec : Z),
    (String.length (text_of_lines ls) < fuel)%nat ->
    count_connections fuel (text_of_lines ls) cc ec
    = (cc + Z.of_nat (List.length ls),
       ec + Z.of_nat (List.length (filter (strstr_found ": 01 ") ls))).
Proof.
  induction ls as [|l ls IH]; intros Hls fuel cc ec Hfuel.
  - destruct fuel; simpl; f_equal; lia.
  - cbn [forallb] in Hls. apply andb_true_iff in Hls. destruct Hls as [Hl Hls].
    destruct (plain_line_spec l Hl) as (Hnl & Hnn & Hlen).
    destruct fuel as [|fuel]; [lia|].
    cbn [text_of_lines] in *. rewrite count_connections_unfold.
    change MAX_LINE_LEN with (S 255).
    rewrite fgets_some, (fgets_chars_line l (text_of_lines ls) Hnl 255 Hlen).
    rewrite c_str_plain by (rewrite no_NUL_app, Hnn; reflexivity).
    rewrite (strstr_before_newline ": 01 " _ _ eq_refl eq_refl l).
    rewrite IH; [|exact Hls|rewrite length_append in Hfuel; simpl in Hfuel; lia].
    cbn [filter List.length]. destruct (strstr_found ": 01 " l); cbn [List.length];
      f_equal; lia.
Qed.

(** X24.  On a file of plain lines (each shorter than 255 characters and
    ended by a newline) the first line is skipped as the header, the total
    is the number of the other lines, and the established count is the
    number of those that contain [": 01 "]; a file with the header alone,
    or an empty file, gives 0 and 0. *)
Theorem network_connections_lines :
  forall (header : string) (ls : list string),
    plain_line header = true ->
    forallb plain_line ls = true ->
    tcp_counts (header ++ String newline (text_of_lines ls))
    = (Z.of_nat (List.length ls),
       Z.of_nat (List.length (filter (strstr_found ": 01 ") ls)))
    /\ tcp_counts (header ++ String newline "") = (0, 0)
    /\ tcp_counts "" = (0, 0).
Proof.
  intros header ls Hh Hls.
  destruct (plain_line_spec header Hh) as (Hnl & _ & Hlen).
  assert (E : forall rest,
             fgets MAX_LINE_LEN (header ++ String newline rest)
             = Some ((header ++ String newline "")%string, rest)).
  { intros rest. change MAX_LINE_LEN with (S 255).
    rewrite fgets_some, (fgets_chars_line header rest Hnl 255 Hlen). reflexivity. }
  split; [|split].
  - unfold tcp_counts. rewrite E.
    rewrite (count_plain_lines ls Hls) by lia. reflexivity.
  - unfold tcp_counts. rewrite E. reflexivity.
  - reflexivity.
Qed.

Lemma network_connections_lines_witness :
  tcp_counts ("  sl  local_address rem_address   st"
              ++ String newline
                   (text_of_lines ["   0: 0100007F:0277 00000000:0000 0A 00000000";
                                   "   1: 01 0100007F:0016"]))
  = (2, 1).
Proof.
  destruct (network_connections_lines "  sl  local_address rem_address   st"
              ["   0: 0100007F:0277 00000000:0000 0A 00000000";
               "   1: 01 0100007F:0016"] eq_refl eq_refl)
    as (H & _ & _).
  exact H.
Defined.

(** ** Start of the daemon *)






(** The start of the example environment, record by record. *)
Example startup_example :
  log_file (fst (startup "2024-05-01 10:00:00" example_environment initial_globals))
  = Some (mkFILE
            ("[2024-05-01 10:00:00] [WARNING] [root] "
             ++ "Failed to initialize directory monitoring: Too many open files"
             ++ String newline
                  ("[2024-05-01 10:00:00] [INFO] [root] ------------------------------"
             ++ String newline
                  ("[2024-05-01 10:00:00] [INFO] [root] Logging program started"
             ++ String newline
                  ("[2024-05-01 10:00:00] [INFO] [root] Program is running with root privileges"
             ++ String newline
                  ("[2024-05-01 10:00:00] [INFO] [root] Logging interval: 60 seconds"
             ++ String newline "")))))%string "").
Proof. vm_compute. reflexivity. Qed.

(** ** The interval over a whole configuration file *)












